(** * OllamaGeneratorAFE: the streaming chat client

    A shallow embedding of [components/generation/OllamaGeneratorAFE.py]:
    the message builder [prepare_messages] and the asynchronous generator
    [generate_stream], together with the parts of the Python runtime the
    generator leans on ([bytes.strip], [bytes.decode], [json.loads],
    [dict.get], truth values).

    Conventions.
    - A Python [bytes] object is a [string] (a list of 8-bit characters).
    - A Python [str] is the [string] holding its UTF-8 encoding; a lone
      surrogate, which only a JSON [\uXXXX] escape can produce, is stored
      in the same three-byte form.
    - The generator is run to exhaustion: its result is the trace of what
      it did (requests posted, fragments yielded) and how it ended. *)

From Stdlib Require Import ZArith Ascii String List Bool Lia.
From stdpp Require Import gmap strings.
Import ListNotations.

Local Open Scope Z_scope.

(** ** Exceptions and the error monad *)

(** The exceptions that can reach the caller of [generate_stream].
    [ClientError] stands for whatever the HTTP client raises (connection
    refused, invalid URL, broken payload).  [RecursionError] marks a scanner
    that ran out of fuel; [json_loads_fuel] shows that [json_loads] never
    ends with it.  The interpreter's own limits are not part of the model:
    Python raises [RecursionError] on a text nested deeper than its
    recursion limit allows and [ValueError] on an integer literal longer
    than its digit limit, and the properties below are stated so that they
    hold whatever exception the decoder raises on a line. *)
Inductive exn : Type :=
| UnicodeDecodeError
| JSONDecodeError
| AttributeError
| RecursionError
| ClientError (detail : string).

Inductive result (A : Type) : Type :=
| Ok (a : A)
| Raise (e : exn).
Arguments Ok {A} a.
Arguments Raise {A} e.

Definition bind {A B : Type} (r : result A) (k : A -> result B) : result B :=
  match r with
  | Ok a => k a
  | Raise e => Raise e
  end.

Notation "'let*' x ':=' r 'in' k" := (bind r (fun x => k))
  (at level 10, x pattern, r at level 100, k at level 200).

(** ** Bytes *)

Definition code (c : ascii) : Z := Z.of_N (N_of_ascii c).
Definition chr (z : Z) : ascii := ascii_of_N (Z.to_N z).

Definition in_range (lo hi : Z) (c : ascii) : bool :=
  (lo <=? code c) && (code c <=? hi).

Definition is_char (z : Z) (c : ascii) : bool := code c =? z.

(** [bytes.strip()] removes the six ASCII whitespace bytes
    space, \t, \n, \v, \f and \r from both ends. *)
Definition is_bytes_space (c : ascii) : bool :=
  is_char 32 c || in_range 9 13 c.

Fixpoint lstrip (s : string) : string :=
  match s with
  | String c r => if is_bytes_space c then lstrip r else s
  | EmptyString => EmptyString
  end.

Fixpoint rstrip (s : string) : string :=
  match s with
  | String c r =>
      match rstrip r with
      | EmptyString => if is_bytes_space c then EmptyString else String c EmptyString
      | r' => String c r'
      end
  | EmptyString => EmptyString
  end.

Definition strip (s : string) : string := rstrip (lstrip s).

(** Truth value of a [bytes] or [str] object: non-empty. *)
Definition nonempty (s : string) : bool :=
  match s with
  | EmptyString => false
  | String _ _ => true
  end.

(** ** [bytes.decode("utf-8")]

    Strict decoding: continuation bytes must be in 0x80..0xBF, and overlong
    forms, surrogates and code points above U+10FFFF are rejected.  Since a
    [str] is kept as its UTF-8 encoding, a successful decode returns the
    bytes unchanged. *)

Definition is_cont (c : ascii) : bool := in_range 128 191 c.

Fixpoint utf8_valid (s : string) : bool :=
  match s with
  | EmptyString => true
  | String c r =>
      if code c <? 128 then utf8_valid r
      else if in_range 194 223 c then
        match r with
        | String c1 r1 => is_cont c1 && utf8_valid r1
        | _ => false
        end
      else if in_range 224 239 c then
        match r with
        | String c1 (String c2 r2) =>
            (if is_char 224 c then in_range 160 191 c1
             else if is_char 237 c then in_range 128 159 c1
             else is_cont c1)
            && is_cont c2 && utf8_valid r2
        | _ => false
        end
      else if in_range 240 244 c then
        match r with
        | String c1 (String c2 (String c3 r3)) =>
            (if is_char 240 c then in_range 144 191 c1
             else if is_char 244 c then in_range 128 143 c1
             else is_cont c1)
            && is_cont c2 && is_cont c3 && utf8_valid r3
        | _ => false
        end
      else false
  end.

Definition decode_utf8 (b : string) : result string :=
  if utf8_valid b then Ok b else Raise UnicodeDecodeError.

(** The encoding of one code point, used for [\uXXXX] escapes. *)
Definition encode_cp (cp : Z) : string :=
  if cp <? 128 then String (chr cp) EmptyString
  else if cp <? 2048 then
    String (chr (192 + cp / 64)) (String (chr (128 + cp mod 64)) EmptyString)
  else if cp <? 65536 then
    String (chr (224 + cp / 4096))
      (String (chr (128 + (cp / 64) mod 64))
         (String (chr (128 + cp mod 64)) EmptyString))
  else
    String (chr (240 + cp / 262144))
      (String (chr (128 + (cp / 4096) mod 64))
         (String (chr (128 + (cp / 64) mod 64))
            (String (chr (128 + cp mod 64)) EmptyString))).

(** ** Python values built by [json.loads] *)

(** A float is kept as the decimal literal it was read from, [m * 10^e];
    the Python object is the double nearest to it. *)
Inductive pyfloat : Type :=
| FDec (m e : Z)
| FNaN
| FInf (negative : bool).

#[warnings="-register-all"]
Inductive value : Type :=
| VNone
| VBool (b : bool)
| VInt (z : Z)
| VFloat (f : pyfloat)
| VStr (s : string)
| VList (l : list value)
| VDict (d : list (string * value)).

(** A [dict] with [str] keys, in insertion order. *)
Definition dict : Type := list (string * value).

Fixpoint dict_set (k : string) (v : value) (d : dict) : dict :=
  match d with
  | [] => [(k, v)]
  | (k', v') :: d' =>
      if String.eqb k k' then (k', v) :: d' else (k', v') :: dict_set k v d'
  end.

Fixpoint dict_lookup (k : string) (d : dict) : option value :=
  match d with
  | [] => None
  | (k', v) :: d' => if String.eqb k k' then Some v else dict_lookup k d'
  end.

(** [float(x) == 0.0] for the literal [m * 10^e]: the nearest double is
    zero when the magnitude is at most 2^-1075, half the least subnormal
    (a tie goes to the even neighbour, which is zero). *)
Definition rounds_to_zero (m e : Z) : bool :=
  (m =? 0) || ((e <? 0) && (Z.abs m * 2 ^ 1075 <=? 10 ^ (- e))).

(** [bool(v)]: the truth value Python's [if] tests. *)
Definition truthy (v : value) : bool :=
  match v with
  | VNone => false
  | VBool b => b
  | VInt z => negb (z =? 0)
  | VFloat (FDec m e) => negb (rounds_to_zero m e)
  | VFloat _ => true
  | VStr s => nonempty s
  | VList l => match l with [] => false | _ => true end
  | VDict d => match d with [] => false | _ => true end
  end.

(** ** [json.loads]

    The default decoder (strict mode, no hooks), as the C scanner of
    CPython reads a [str].  Every syntax error is a [JSONDecodeError]; the
    message and position are not kept.  The functions take the text still to
    be read and return the value together with the text after it.  [fuel]
    bounds the number of nested calls; [json_loads] supplies more than the
    text can use.  The interpreter's own limits (recursion depth, the cap on
    the digits of an integer literal) are left out: a text that hits one of
    them raises in Python and parses here. *)

Definition is_json_ws (c : ascii) : bool :=
  is_char 32 c || is_char 9 c || is_char 10 c || is_char 13 c.

Fixpoint skip_ws (s : string) : string :=
  match s with
  | String c r => if is_json_ws c then skip_ws r else s
  | EmptyString => EmptyString
  end.

Definition is_digit (c : ascii) : bool := in_range 48 57 c.

Definition hex_digit (c : ascii) : option Z :=
  if in_range 48 57 c then Some (code c - 48)
  else if in_range 97 102 c then Some (code c - 97 + 10)
  else if in_range 65 70 c then Some (code c - 65 + 10)
  else None.

(** The four hexadecimal digits of a [\uXXXX] escape. *)
Definition hex4 (a b c d : ascii) : option Z :=
  match hex_digit a, hex_digit b, hex_digit c, hex_digit d with
  | Some x, Some y, Some z, Some w => Some (((x * 16 + y) * 16 + z) * 16 + w)
  | _, _, _, _ => None
  end.

(** The one-letter escapes: quotation mark, backslash, slash, b, f, n, r, t. *)
Definition simple_escape (c : ascii) : option ascii :=
  if is_char 34 c then Some (chr 34)
  else if is_char 92 c then Some (chr 92)
  else if is_char 47 c then Some (chr 47)
  else if is_char 98 c then Some (chr 8)
  else if is_char 102 c then Some (chr 12)
  else if is_char 110 c then Some (chr 10)
  else if is_char 114 c then Some (chr 13)
  else if is_char 116 c then Some (chr 9)
  else None.

Definition is_high_surrogate (cp : Z) : bool := (55296 <=? cp) && (cp <=? 56319).
Definition is_low_surrogate (cp : Z) : bool := (56320 <=? cp) && (cp <=? 57343).
Definition join_surrogates (hi lo : Z) : Z :=
  65536 + (hi - 55296) * 1024 + (lo - 56320).

(** [scanstring]: the text after an opening quote, up to the closing one.
    A high surrogate escape directly followed by a low surrogate escape is
    one code point. *)
Fixpoint scanstring (s : string) : result (string * string) :=
  match s with
  | EmptyString => Raise JSONDecodeError
  | String c r =>
      if is_char 34 c then Ok (EmptyString, r)
      else if is_char 92 c then
        match r with
        | EmptyString => Raise JSONDecodeError
        | String e r1 =>
            if is_char 117 e then
              match r1 with
              | String h1 (String h2 (String h3 (String h4 r2))) =>
                  match hex4 h1 h2 h3 h4 with
                  | None => Raise JSONDecodeError
                  | Some cp =>
                      let single :=
                        let* (t, rest) := scanstring r2 in
                        Ok (encode_cp cp +:+ t, rest) in
                      if is_high_surrogate cp then
                        match r2 with
                        | String b (String u r3) =>
                            if is_char 92 b && is_char 117 u then
                              match r3 with
                              | String l1 (String l2 (String l3 (String l4 r4))) =>
                                  match hex4 l1 l2 l3 l4 with
                                  | None => Raise JSONDecodeError
                                  | Some cp2 =>
                                      if is_low_surrogate cp2 then
                                        let* (t, rest) := scanstring r4 in
                                        Ok (encode_cp (join_surrogates cp cp2) +:+ t, rest)
                                      else single
                                  end
                              | _ => Raise JSONDecodeError
                              end
                            else single
                        | _ => single
                        end
                      else single
                  end
              | _ => Raise JSONDecodeError
              end
            else
              match simple_escape e with
              | None => Raise JSONDecodeError
              | Some x =>
                  let* (t, rest) := scanstring r1 in
                  Ok (String x t, rest)
              end
        end
      else if code c <=? 31 then Raise JSONDecodeError
      else
        let* (t, rest) := scanstring r in
        Ok (String c t, rest)
  end.

(** Numbers: an optional minus sign; an integer part, either a single 0 or
    a digit 1-9 followed by digits; an optional fraction, a point followed
    by at least one digit; an optional exponent, e or E, an optional sign
    and at least one digit.  A fraction or exponent makes a float. *)
Fixpoint digits (s : string) : list Z * string :=
  match s with
  | String c r =>
      if is_digit c then let '(ds, rest) := digits r in (code c - 48 :: ds, rest)
      else ([], s)
  | EmptyString => ([], EmptyString)
  end.

Definition Z_of_digits (ds : list Z) : Z :=
  fold_left (fun acc d => acc * 10 + d) ds 0.

Definition int_part (s : string) : option (list Z * string) :=
  match s with
  | String c r =>
      if is_char 48 c then Some ([0], r)
      else if in_range 49 57 c then Some (digits s)
      else None
  | EmptyString => None
  end.

Definition frac_part (s : string) : option (list Z * string) :=
  match s with
  | String c r =>
      if is_char 46 c then
        match digits r with
        | ([], _) => None
        | (ds, rest) => Some (ds, rest)
        end
      else None
  | EmptyString => None
  end.

Definition exp_part (s : string) : option (Z * string) :=
  match s with
  | String c r =>
      if is_char 101 c || is_char 69 c then
        let '(sign, r1) :=
          match r with
          | String g r' =>
              if is_char 45 g then (-1, r')
              else if is_char 43 g then (1, r')
              else (1, r)
          | EmptyString => (1, r)
          end in
        match digits r1 with
        | ([], _) => None
        | (ds, rest) => Some (sign * Z_of_digits ds, rest)
        end
      else None
  | EmptyString => None
  end.

Definition match_number (s : string) : result (value * string) :=
  let '(sign, s1) :=
    match s with
    | String c r => if is_char 45 c then (-1, r) else (1, s)
    | EmptyString => (1, s)
    end in
  match int_part s1 with
  | None => Raise JSONDecodeError
  | Some (ip, s2) =>
      let '(fp, s3) :=
        match frac_part s2 with
        | Some (fd, rest) => (Some fd, rest)
        | None => (None, s2)
        end in
      let '(ep, s4) :=
        match exp_part s3 with
        | Some (x, rest) => (Some x, rest)
        | None => (None, s3)
        end in
      match fp, ep with
      | None, None => Ok (VInt (sign * Z_of_digits ip), s4)
      | _, _ =>
          let fd := match fp with Some fd => fd | None => [] end in
          let x := match ep with Some x => x | None => 0 end in
          Ok (VFloat (FDec (sign * Z_of_digits (ip ++ fd)) (x - Z.of_nat (length fd))), s4)
      end
  end.

(** [strip_prefix p s] is the text after [p] when [s] starts with [p]. *)
Fixpoint strip_prefix (p s : string) : option string :=
  match p, s with
  | EmptyString, _ => Some s
  | String a p', String b s' => if Ascii.eqb a b then strip_prefix p' s' else None
  | String _ _, EmptyString => None
  end.

Definition keyword (s : string) : option (value * string) :=
  match strip_prefix "null" s with Some r => Some (VNone, r) | None =>
  match strip_prefix "true" s with Some r => Some (VBool true, r) | None =>
  match strip_prefix "false" s with Some r => Some (VBool false, r) | None =>
  match strip_prefix "NaN" s with Some r => Some (VFloat FNaN, r) | None =>
  match strip_prefix "Infinity" s with Some r => Some (VFloat (FInf false), r) | None =>
  match strip_prefix "-Infinity" s with Some r => Some (VFloat (FInf true), r) | None =>
  None end end end end end end.

(** [scan_once] reads one value; [object_members] and [array_items] are the
    loops of the object and array readers, entered after the opening
    bracket when the container is not empty. *)
Fixpoint scan_once (fuel : nat) (s : string) : result (value * string) :=
  match fuel with
  | O => Raise RecursionError
  | S fuel =>
      match s with
      | EmptyString => Raise JSONDecodeError
      | String c r =>
          if is_char 34 c then
            let* (t, rest) := scanstring r in Ok (VStr t, rest)
          else if is_char 123 c then
            match skip_ws r with
            | EmptyString => Raise JSONDecodeError
            | String c1 r1 =>
                if is_char 125 c1 then Ok (VDict [], r1)
                else object_members fuel [] (String c1 r1)
            end
          else if is_char 91 c then
            match skip_ws r with
            | EmptyString => Raise JSONDecodeError
            | String c1 r1 =>
                if is_char 93 c1 then Ok (VList [], r1)
                else array_items fuel [] (String c1 r1)
            end
          else
            match keyword s with
            | Some x => Ok x
            | None => match_number s
            end
      end
  end

with object_members (fuel : nat) (d : dict) (s : string) : result (value * string) :=
  match fuel with
  | O => Raise RecursionError
  | S fuel =>
      match s with
      | EmptyString => Raise JSONDecodeError
      | String q r =>
          if is_char 34 q then
            let* (k, r1) := scanstring r in
            match skip_ws r1 with
            | EmptyString => Raise JSONDecodeError
            | String colon r2 =>
                if is_char 58 colon then
                  let* (v, r3) := scan_once fuel (skip_ws r2) in
                  let d' := dict_set k v d in
                  match skip_ws r3 with
                  | EmptyString => Raise JSONDecodeError
                  | String e r4 =>
                      if is_char 125 e then Ok (VDict d', r4)
                      else if is_char 44 e then object_members fuel d' (skip_ws r4)
                      else Raise JSONDecodeError
                  end
                else Raise JSONDecodeError
            end
          else Raise JSONDecodeError
      end
  end

with array_items (fuel : nat) (acc : list value) (s : string) : result (value * string) :=
  match fuel with
  | O => Raise RecursionError
  | S fuel =>
      let* (v, r1) := scan_once fuel s in
      let acc' := acc ++ [v] in
      match skip_ws r1 with
      | EmptyString => Raise JSONDecodeError
      | String e r2 =>
          if is_char 93 e then Ok (VList acc', r2)
          else if is_char 44 e then array_items fuel acc' (skip_ws r2)
          else Raise JSONDecodeError
      end
  end.

(** U+FEFF, the byte order mark, in UTF-8. *)
Definition bom : string :=
  String (chr 239) (String (chr 187) (String (chr 191) EmptyString)).

Definition json_loads (s : string) : result value :=
  match strip_prefix bom s with
  | Some _ => Raise JSONDecodeError
  | None =>
      let* (v, rest) := scan_once (S (2 * String.length s)) (skip_ws s) in
      match skip_ws rest with
      | EmptyString => Ok v
      | String _ _ => Raise JSONDecodeError
      end
  end.

(** ** The program: [OllamaGeneratorAFE] *)

(** *** Text helpers *)

(** [sep.join(l)] *)
Fixpoint join (sep : string) (l : list string) : string :=
  match l with
  | [] => EmptyString
  | [x] => x
  | x :: rest => x +:+ sep +:+ join sep rest
  end.

Definition nl : string := String (chr 10) EmptyString.
Definition dq : string := String (chr 34) EmptyString.

(** The system instruction of [prepare_messages]: a literal without
    placeholders, given here line by line ([dq] is a quotation mark). *)
Definition evaluate_instructor : string := join nl [
    "You serve as a judge tasked with evaluating teachers and instructors based on their video transcripts.  You will receive a user query and context pieces that have a semantic similarity to that specific query. Please answer these user queries only their provided context. If the provided documentation does not provide enough information, say so. ";
    "        Your assessment should cover various aspects, and your judgment should be quantified on a scale ranging from 0 to 3, with 0 indicating poor performance and 3 indicating exceptional performance. Ensure thorough consideration of the following criteria in your evaluation. final_output_matrix should contain a dictionary with each parameter as key and score as value.";
    "        The criteria include -";
    "        I)Communication Clarity";
    "            Score: 0";
    "            Example: " +:+ dq +:+ "Today, we're, um, going to... you know, discuss something important. It's, uh, related to what we talked about last time." +:+ dq;
    "            Explanation: The teacher's speech is filled with pauses and filler words, making it difficult for students to understand the topic.  ";
    "            Score: 1";
    "            Example: " +:+ dq +:+ "Today we will talk about photosynthesis. It's a process... um, well, plants use it to make food." +:+ dq;
    "            Explanation: The teacher introduces the topic but lacks clarity and confidence, leading to potential confusion.";
    "            Score: 2";
    "            Example: " +:+ dq +:+ "Photosynthesis is the process by which plants convert sunlight into energy. This energy is used to create food for the plant." +:+ dq;
    "            Explanation: The teacher explains the concept clearly but without much elaboration or detailed examples.";
    "            Score: 3";
    "            Example: " +:+ dq +:+ "Photosynthesis is the process by which plants convert sunlight into chemical energy. This process involves chlorophyll in the leaves capturing light energy to synthesize glucose from carbon dioxide and water, releasing oxygen as a byproduct. Think of it as plants' way of cooking their food using sunlight." +:+ dq;
    "            Explanation: The teacher provides a clear, detailed explanation with an analogy that aids understanding.";
    "        II)Positivity";
    "            Score: 0";
    "            Example: " +:+ dq +:+ "I guess we have to cover this boring topic today. Let's just get through it." +:+ dq;
    "            Explanation: The teacher displays a negative attitude, which can demotivate students.";
    "            Score: 1";
    "            Example: " +:+ dq +:+ "Let's talk about our lesson for today. It's not the most exciting, but we need to cover it." +:+ dq;
    "            Explanation: The teacher shows a neutral attitude, which may not engage or encourage students.";
    "            Score: 2";
    "            Example: " +:+ dq +:+ "Today we have an interesting topic to explore! It's going to be a good learning experience." +:+ dq;
    "            Explanation: The teacher displays a generally positive attitude, creating a more welcoming environment.";
    "            Score: 3";
    "            Example: " +:+ dq +:+ "Good morning, everyone! I'm really excited about today's lesson. We're going to dive into the fascinating world of photosynthesis. I can't wait to see your thoughts and questions!" +:+ dq;
    "            Explanation: The teacher's enthusiasm and positive demeanor create an encouraging and supportive learning environment.";
    "        III)Personal Engagement";
    "            Score: 0";
    "            Example: " +:+ dq +:+ "Just read the chapter on your own. I'll be at my desk if you need me." +:+ dq;
    "            Explanation: The teacher shows little to no interest in engaging with students or the material.";
    "            Score: 1";
    "            Example: " +:+ dq +:+ "Okay, we'll go through the lesson. Let me know if you have any questions." +:+ dq;
    "            Explanation: The teacher is somewhat engaged but lacks enthusiasm and deeper interaction.";
    "            Score: 2";
    "            Example: " +:+ dq +:+ "I'm looking forward to our discussion on this topic. I want to hear your thoughts and questions." +:+ dq;
    "            Explanation: The teacher shows genuine interest in the topic and engages with students, encouraging participation.";
    "            Score: 3";
    "            Example: " +:+ dq +:+ "I love discussing this topic with you all. Your ideas and questions are fantastic. Let's explore this together and see where it takes us!" +:+ dq;
    "            Explanation: The teacher is highly engaged and enthusiastic, fostering an interactive and dynamic learning experience.";
    "        IV)Classroom Management Practices";
    "            Score: 0";
    "            Example: " +:+ dq +:+ "Quiet down! Why can't you all just behave?" +:+ dq;
    "            Explanation: The teacher struggles to maintain order and discipline, leading to a chaotic classroom environment.";
    "            Score: 1";
    "            Example: " +:+ dq +:+ "Please settle down so we can start. We need to focus." +:+ dq;
    "            Explanation: The teacher makes some effort to manage the class but lacks effective strategies to maintain discipline and engagement.";
    "            Score: 2";
    "            Example: " +:+ dq +:+ "Let's use our quiet signals and start our lesson. Remember the rules we agreed on." +:+ dq;
    "            Explanation: The teacher employs some strategies to manage the classroom, maintaining a generally orderly environment.";
    "            Score: 3";
    "            Example: " +:+ dq +:+ "Great job on keeping our classroom rules! Let's move on to our next activity smoothly. I appreciate your cooperation." +:+ dq;
    "            Explanation: The teacher effectively uses well-established strategies to maintain discipline and engagement, creating a well-managed classroom.";
    "        V)Adherence to Rules";
    "            Score: 0";
    "            Example: " +:+ dq +:+ "I know the rule says no food, but whatever, just eat if you want." +:+ dq;
    "            Explanation: The teacher blatantly disregards established rules and procedures.";
    "            Score: 1";
    "            Example: " +:+ dq +:+ "I'm not too strict on the no food rule, but try not to make a mess." +:+ dq;
    "            Explanation: The teacher occasionally bends the rules, leading to potential inconsistency.";
    "            Score: 2";
    "            Example: " +:+ dq +:+ "Remember, no food in class as per the school policy. Let's stick to the rules." +:+ dq;
    "            Explanation: The teacher generally adheres to the rules but might allow some flexibility.";
    "            Score: 3";
    "            Example: " +:+ dq +:+ "We all know the rules about no food in the classroom. Let's respect that to maintain a clean and focused environment." +:+ dq;
    "            Explanation: The teacher consistently adheres to established rules and procedures, setting a clear example.";
    "        VI)Classroom Atmosphere";
    "            Score: 0";
    "            Example: " +:+ dq +:+ "This class is so frustrating. I can't deal with this today." +:+ dq;
    "            Explanation: The teacher creates a negative atmosphere, potentially affecting student motivation and learning.";
    "            Score: 1";
    "            Example: " +:+ dq +:+ "Let's just get through today's lesson. We'll try to make it better next time." +:+ dq;
    "            Explanation: The teacher maintains a neutral atmosphere, which might not be very motivating for students.";
    "            Score: 2";
    "            Example: " +:+ dq +:+ "I appreciate everyone's effort today. Let's keep this positive energy going." +:+ dq;
    "            Explanation: The teacher fosters a generally positive atmosphere, encouraging student participation and motivation.";
    "            Score: 3";
    "            Example: " +:+ dq +:+ "Fantastic work, everyone! I love the energy in this room. Let's keep this enthusiasm up throughout the lesson." +:+ dq;
    "            Explanation: The teacher creates a highly positive and engaging atmosphere, greatly enhancing student motivation and learning.";
    "        VII)Student Participation";
    "            Score: 0";
    "            Example: " +:+ dq +:+ "Just listen to me and don't ask questions right now." +:+ dq;
    "            Explanation: The teacher discourages student participation, leading to a passive learning environment.";
    "            Score: 1";
    "            Example: " +:+ dq +:+ "I'll answer questions later. Let me finish the explanation first." +:+ dq;
    "            Explanation: The teacher allows some participation but controls it tightly, limiting student engagement.";
    "            Score: 2";
    "            Example: " +:+ dq +:+ "Feel free to ask questions or share your thoughts as we go along." +:+ dq;
    "            Explanation: The teacher encourages student participation, fostering a more interactive environment.";
    "            Score: 3";
    "            Example: " +:+ dq +:+ "What do you all think about this concept? Let's discuss your ideas and questions. I want everyone to contribute." +:+ dq;
    "            Explanation: The teacher actively promotes student participation, creating an inclusive and engaging learning experience.";
    "        The output you provide should be strictly in a format where the response is a json response with 2 elements in it. One is judge_parameters and other is final_output_matrix. Below is how it should look like.";
    "        judge_parameters=";
    "        1.Communication Clarity - *SCORE ON A SCALE OF 0-3* + Explanation of the score";
    "        2.Positivity - *SCORE ON A SCALE OF 0-3* + Explanation of the score";
    "        3.Personal Engagement - *SCORE ON A SCALE OF 0-3* + Explanation of the score";
    "        4.Classroom Management Practices - *SCORE ON A SCALE OF 0-3* + Explanation of the score";
    "        5.Adherence to Rules - *SCORE ON A SCALE OF 0-3* + Explanation of the score";
    "        6.Classroom Atmosphere - *SCORE ON A SCALE OF 0-3* + Explanation of the score";
    "        7.Student Participation - *SCORE ON A SCALE OF 0-3* + Explanation of the score";
    "        final_output_matrix(with keys and values)";
    "        "
  ].


(** *** Data *)

(** An entry of the conversation history: an object read through its
    attributes [type] and [content]. *)
Record conversation_item : Type := { type : string; content : string }.

(** The dict [{"message": message, "finish_reason": finish_reason}] that
    [generate_stream] yields. *)
Definition fragment (message : value) (finish_reason : string) : value :=
  VDict [("message", message); ("finish_reason", VStr finish_reason)].

(** The dict [{"role": role, "content": content}] of the message list. *)
Definition chat_message (role content : string) : value :=
  VDict [("role", VStr role); ("content", VStr content)].

(** *** [__init__] *)

(** The attributes that [__init__] assigns to the generator object. *)
Record OllamaGeneratorAFE : Type := {
  name : string;
  description : string;
  requires_env : list string;
  streamable : bool;
  context_window : Z
}.

Definition __init__ : OllamaGeneratorAFE :=
  {| name := "Ollama";
     description :=
       "Generator using a local running Ollama Model specified in the ` OLLAMA_MODEL` variable";
     requires_env := ["OLLAMA_URL"; "OLLAMA_MODEL"];
     streamable := true;
     context_window := 10000 |}.

(** *** [prepare_messages] *)

Definition system_message : value := chat_message "system" evaluate_instructor.

Definition user_content (user_context query : string) : string :=
  "With this provided context: '" +:+ user_context
  +:+ "' Please judge this instructor: '" +:+ query +:+ "'".

(** [messages.append(x)] *)
Definition append (messages : list value) (x : value) : list value :=
  messages ++ [x].

Definition prepare_messages (queries context : list string)
    (conversation : list conversation_item) : list value :=
  let messages := [system_message] in
  let messages :=
    fold_left (fun messages message =>
                 append messages (chat_message (type message) (content message)))
              conversation messages in
  let query := join " " queries in
  let user_context := join " " context in
  append messages (chat_message "user" (user_content user_context query)).

(** *** The world around [generate_stream] *)

(** What [session.post(url, json=data)] does: it raises, or it gives a
    response whose [content] is iterated line by line until the body ends
    or the connection breaks.  The status code is not looked at. *)
Inductive response : Type :=
| Refused (e : exn)
| Streamed (content : list string) (broken : option exn).

(** What a run of the generator does, in order. *)
Inductive event : Type :=
| Post (url : string) (data : value)
| Yield (item : value).

(** A generator run to its end: the events, and the exception it ended
    with, if any. *)
Record run : Type := { trace : list event; raised : option exn }.

(** [d.get(key, default)] on an arbitrary object: only a dict has [get]. *)
Definition get (d : value) (key : string) (default_value : value) : result value :=
  match d with
  | VDict d => Ok (default default_value (dict_lookup key d))
  | _ => Raise AttributeError
  end.

(** *** [generate_stream] *)

(** The body of the [async for] loop for one line. *)
Definition consume_line (line : string) : result value :=
  if nonempty (strip line) then
    let* text := decode_utf8 line in
    let* json_data := json_loads text in
    let* m := get json_data "message" (VDict []) in
    let* message := get m "content" (VStr EmptyString) in
    let* done := get json_data "done" (VBool false) in
    let finish_reason := if truthy done then "stop" else EmptyString in
    Ok (fragment message finish_reason)
  else
    Ok (fragment (VStr EmptyString) "stop").

(** [async for line in response.content: ...] *)
Fixpoint consume (content : list string) (broken : option exn) : run :=
  match content with
  | [] => {| trace := []; raised := broken |}
  | line :: rest =>
      match consume_line line with
      | Ok item =>
          let r := consume rest broken in
          {| trace := Yield item :: trace r; raised := raised r |}
      | Raise e => {| trace := []; raised := Some e |}
      end
  end.

Section Generator.

(** [os.environ] and the HTTP transport behind [aiohttp]. *)
Variable environ : gmap string string.
Variable post : string -> value -> response.

Definition environ_get (key default_value : string) : string :=
  default default_value (environ !! key).

Definition generate_stream (queries context : list string)
    (conversation : option (list conversation_item)) : run :=
  let url := environ_get "OLLAMA_URL" EmptyString in
  let model := environ_get "OLLAMA_MODEL" EmptyString in
  let yielded :=
    if String.eqb url EmptyString
    then [Yield (fragment (VStr "Missing Ollama URL") "stop")]
    else [] in
  let url := url +:+ "/api/chat" in
  let conversation := default [] conversation in
  let messages := prepare_messages queries context conversation in
  let data := VDict [("model", VStr model); ("messages", VList messages)] in
  match post url data with
  | Refused e =>
      {| trace := yielded ++ [Post url data]; raised := Some e |}
  | Streamed content broken =>
      let r := consume content broken in
      {| trace := yielded ++ Post url data :: trace r; raised := raised r |}
  end.

End Generator.

(** Projections of a run. *)
Definition yields (r : run) : list value :=
  flat_map (fun ev => match ev with Yield item => [item] | Post _ _ => [] end) (trace r).

Definition requests (r : run) : list (string * value) :=
  flat_map (fun ev => match ev with Post url data => [(url, data)] | Yield _ => [] end) (trace r).

(** *** Vocabulary for the statements *)

(** The request a call makes: its URL and its JSON body. *)
Definition api_url (environ : gmap string string) : string :=
  environ_get environ "OLLAMA_URL" EmptyString +:+ "/api/chat".

Definition request_data (environ : gmap string string)
    (queries context : list string)
    (conversation : option (list conversation_item)) : value :=
  VDict [("model", VStr (environ_get environ "OLLAMA_MODEL" EmptyString));
         ("messages",
          VList (prepare_messages queries context (default [] conversation)))].

(** The endpoint is configured, and the transport answers this call's
    request with the lines [content], ending as [broken] says. *)
Definition serves (environ : gmap string string)
    (post : string -> value -> response)
    (queries context : list string)
    (conversation : option (list conversation_item))
    (content : list string) (broken : option exn) : Prop :=
  String.eqb (environ_get environ "OLLAMA_URL" EmptyString) EmptyString = false /\
  post (api_url environ) (request_data environ queries context conversation)
  = Streamed content broken.

(** [json.loads(line.decode("utf-8"))] *)
Definition loads_line (line : string) : result value :=
  let* text := decode_utf8 line in json_loads text.

(** What a parsed object carries: the text at [message.content], when
    [message] is absent or a dict, and the [done] field. *)
Definition object_text (d : dict) : option value :=
  match dict_lookup "message" d with
  | None => Some (VStr EmptyString)
  | Some (VDict m) => Some (default (VStr EmptyString) (dict_lookup "content" m))
  | Some _ => None
  end.

Definition object_done (d : dict) : value :=
  default (VBool false) (dict_lookup "done" d).

(** [x] occurs in [s], character for character. *)
Definition occurs_in (x s : string) : Prop :=
  exists before after, s = before +:+ x +:+ after.

(** JSON text written with apostrophes in place of quotation marks. *)
Fixpoint json_text (s : string) : string :=
  match s with
  | EmptyString => EmptyString
  | String c r => String (if is_char 39 c then chr 34 else c) (json_text r)
  end.

(** A transport that answers every request with the same body, one that
    refuses every request, and an environment with both settings. *)
Definition answering (content : list string) (broken : option exn)
  : string -> value -> response :=
  fun _ _ => Streamed content broken.

Definition refusing (e : exn) : string -> value -> response :=
  fun _ _ => Refused e.

Definition configured : gmap string string :=
  <["OLLAMA_URL" := "http://localhost:11434"]>
    (<["OLLAMA_MODEL" := "llama3"]> ∅).

(** What a reader of the scanner guarantees when called with enough fuel:
    it does not run out, and it consumes some of the text. *)
Definition consumes (r : result (value * string)) (s : string) : Prop :=
  r <> Raise RecursionError /\
  forall v rest, r = Ok (v, rest) -> (String.length rest < String.length s)%nat.

(** The shape of a yielded item: the two keys, and a finish_reason that is
    empty or "stop". *)
Definition well_formed_fragment (item : value) : Prop :=
  exists (message : value) (finish_reason : string),
    item = VDict [("message", message); ("finish_reason", VStr finish_reason)]
    /\ (finish_reason = EmptyString \/ finish_reason = "stop").

(** *** Valid JSON

    The grammar of RFC 8259 as a recogniser, to say what "valid JSON" means
    where a statement needs it.  Strings and numbers are those of
    [scanstring] and [match_number]; the one difference from [scan_once] is
    that the only literal names are null, true and false.  Each function
    returns the text after what it recognised. *)

Definition literal_name (s : string) : option string :=
  match strip_prefix "null" s with Some r => Some r | None =>
  match strip_prefix "true" s with Some r => Some r | None =>
  strip_prefix "false" s end end.

Fixpoint rfc8259_value (fuel : nat) (s : string) : option string :=
  match fuel with
  | O => None
  | S fuel =>
      match s with
      | EmptyString => None
      | String c r =>
          if is_char 34 c then
            match scanstring r with
            | Ok (_, rest) => Some rest
            | Raise _ => None
            end
          else if is_char 123 c then
            match skip_ws r with
            | EmptyString => None
            | String c1 r1 =>
                if is_char 125 c1 then Some r1
                else rfc8259_members fuel (String c1 r1)
            end
          else if is_char 91 c then
            match skip_ws r with
            | EmptyString => None
            | String c1 r1 =>
                if is_char 93 c1 then Some r1
                else rfc8259_elements fuel (String c1 r1)
            end
          else
            match literal_name s with
            | Some rest => Some rest
            | None =>
                match match_number s with
                | Ok (_, rest) => Some rest
                | Raise _ => None
                end
            end
      end
  end

with rfc8259_members (fuel : nat) (s : string) : option string :=
  match fuel with
  | O => None
  | S fuel =>
      match s with
      | EmptyString => None
      | String q r =>
          if is_char 34 q then
            match scanstring r with
            | Raise _ => None
            | Ok (_, r1) =>
                match skip_ws r1 with
                | EmptyString => None
                | String colon r2 =>
                    if is_char 58 colon then
                      match rfc8259_value fuel (skip_ws r2) with
                      | None => None
                      | Some r3 =>
                          match skip_ws r3 with
                          | EmptyString => None
                          | String e r4 =>
                              if is_char 125 e then Some r4
                              else if is_char 44 e
                                   then rfc8259_members fuel (skip_ws r4)
                                   else None
                          end
                      end
                    else None
                end
            end
          else None
      end
  end

with rfc8259_elements (fuel : nat) (s : string) : option string :=
  match fuel with
  | O => None
  | S fuel =>
      match rfc8259_value fuel s with
      | None => None
      | Some r1 =>
          match skip_ws r1 with
          | EmptyString => None
          | String e r2 =>
              if is_char 93 e then Some r2
              else if is_char 44 e then rfc8259_elements fuel (skip_ws r2)
              else None
          end
      end
  end.

(** A line of bytes is valid JSON when it is valid UTF-8 and a single JSON
    value with optional whitespace around it. *)
Definition valid_json (line : string) : bool :=
  utf8_valid line
  && match rfc8259_value (S (2 * String.length line)) (skip_ws line) with
     | Some rest => negb (nonempty (skip_ws rest))
     | None => false
     end.

(** Every character of [s] satisfies [p]. *)
Fixpoint string_forallb (p : ascii -> bool) (s : string) : bool :=
  match s with
  | EmptyString => true
  | String c r => p c && string_forallb p r
  end.

(** The fragment the missing-endpoint branch yields, and what a call yields
    before it posts its request. *)
Definition missing_url_fragment : value :=
  fragment (VStr "Missing Ollama URL") "stop".

Definition yielded_first (environ : gmap string string) : list value :=
  if String.eqb (environ_get environ "OLLAMA_URL" EmptyString) EmptyString
  then [missing_url_fragment]
  else [].

(** What the loop body makes of a line that is not blank, given what
    [loads_line] returned for it. *)
Definition line_outcome (loaded : result value) : result value :=
  match loaded with
  | Ok (VDict d) =>
      match object_text d with
      | Some text =>
          Ok (fragment text (if truthy (object_done d) then "stop" else EmptyString))
      | None => Raise AttributeError
      end
  | Ok _ => Raise AttributeError
  | Raise e => Raise e
  end.

Local Abbreviation len := String.length.

(** * Properties *)

(** The system instruction is the 9216 characters of the source literal. *)
Example evaluate_instructor_length :
  Z.of_nat (String.length evaluate_instructor) = 9216.
Proof. vm_compute. reflexivity. Qed.

(** ** The scanner never runs out of fuel

    Every reader consumes at least one character, so the fuel that
    [json_loads] supplies, more than twice the length of the text, is never
    used up.  This is a fact about the fuel of the definitions above, not
    about Python's recursion limit, which they leave out. *)


Lemma skip_ws_length (s : string) : (len (skip_ws s) <= len s)%nat.
Proof.
  induction s as [|c r IH]; simpl; [lia|].
  destruct (is_json_ws c); simpl; lia.
Qed.

(** One case split on the head of the equation [H]. *)
Ltac split_head H :=
  match type of H with
  | (let _ := _ in _) = _ => cbv zeta in H
  | bind ?x _ = _ => destruct x as [[? ?]|?] eqn:?; cbn [bind] in H
  | (match ?x with _ => _ end) = _ => destruct x eqn:?
  end.

Lemma scanstring_length (n : nat) :
  forall s t rest, (len s <= n)%nat -> scanstring s = Ok (t, rest) ->
                   (len rest < len s)%nat.
Proof.
  induction n as [|n IH]; intros s t rest Hn H.
  - destruct s; cbn in *; [discriminate | lia].
  - destruct s as [|c r]; cbn [scanstring] in H; [discriminate|].
    repeat split_head H; try discriminate H;
      injection H as <- <-; subst; cbn [String.length] in *;
      repeat match goal with
             | E : scanstring _ = Ok _ |- _ =>
                 apply IH in E; [|cbn [String.length]; lia]
             end;
      cbn [String.length] in *; lia.
Qed.

Lemma scanstring_no_recursion_error (n : nat) :
  forall s, (len s <= n)%nat -> scanstring s <> Raise RecursionError.
Proof.
  induction n as [|n IH]; intros s Hn H.
  - destruct s; cbn in *; [discriminate | lia].
  - destruct s as [|c r]; cbn [scanstring] in H; [discriminate|].
    repeat split_head H; try discriminate H;
      injection H as ->; subst; cbn [String.length] in *;
      match goal with
      | E : scanstring _ = Raise RecursionError |- _ =>
          apply IH in E; [exact E | cbn [String.length]; lia]
      end.
Qed.

Lemma strip_prefix_length (p s r : string) :
  strip_prefix p s = Some r -> (len r + len p = len s)%nat.
Proof.
  revert s; induction p as [|a p IH]; intros s H.
  - cbn in H. injection H as ->. cbn. lia.
  - destruct s as [|b s]; cbn in H; [discriminate|].
    destruct (Ascii.eqb a b); [|discriminate].
    apply IH in H. cbn. lia.
Qed.

Lemma keyword_length (s : string) (v : value) (rest : string) :
  keyword s = Some (v, rest) -> (len rest < len s)%nat.
Proof.
  unfold keyword. intros H.
  repeat match type of H with
         | (match strip_prefix ?p s with _ => _ end) = _ =>
             let E := fresh "E" in
             destruct (strip_prefix p s) eqn:E;
             [injection H as <- <-; apply strip_prefix_length in E;
              cbn in E; lia|]
         end.
  discriminate.
Qed.

Lemma digits_length (s : string) (ds : list Z) (rest : string) :
  digits s = (ds, rest) -> (len rest <= len s)%nat.
Proof.
  revert ds rest; induction s as [|c r IH]; intros ds rest H; cbn in H.
  - injection H as <- <-. cbn. lia.
  - destruct (is_digit c).
    + destruct (digits r) as [ds' rest'] eqn:E. injection H as <- <-.
      specialize (IH _ _ eq_refl). cbn. lia.
    + injection H as <- <-. lia.
Qed.

Lemma int_part_length (s : string) (ip : list Z) (rest : string) :
  int_part s = Some (ip, rest) -> (len rest < len s)%nat.
Proof.
  destruct s as [|c r]; cbn [int_part]; [discriminate|]. intros H.
  destruct (is_char 48 c); [injection H as <- <-; cbn; lia|].
  destruct (in_range 49 57 c) eqn:Hd; [|discriminate].
  injection H as H. cbn [digits] in H.
  assert (Hdig : is_digit c = true).
  { unfold is_digit, in_range in *. lia. }
  rewrite Hdig in H. destruct (digits r) as [ds rest'] eqn:E.
  injection H as <- <-. apply digits_length in E. cbn. lia.
Qed.

Lemma frac_part_length (s : string) (fd : list Z) (rest : string) :
  frac_part s = Some (fd, rest) -> (len rest <= len s)%nat.
Proof.
  destruct s as [|c r]; cbn [frac_part]; [discriminate|]. intros H.
  destruct (is_char 46 c); [|discriminate].
  destruct (digits r) as [ds rest'] eqn:E. apply digits_length in E.
  destruct ds; [discriminate|]. injection H as <- <-. cbn. lia.
Qed.

Lemma exp_part_length (s : string) (x : Z) (rest : string) :
  exp_part s = Some (x, rest) -> (len rest <= len s)%nat.
Proof.
  destruct s as [|c r]; cbn [exp_part]; [discriminate|]. intros H.
  destruct (is_char 101 c || is_char 69 c); [|discriminate].
  match type of H with
  | (let '(_, _) := ?p in _) = _ => destruct p as [sign r1] eqn:Hp
  end.
  assert (Hr1 : (len r1 <= len r)%nat).
  { destruct r as [|g r']; [injection Hp as <- <-; lia|].
    destruct (is_char 45 g); [injection Hp as <- <-; cbn; lia|].
    destruct (is_char 43 g); injection Hp as <- <-; cbn; lia. }
  destruct (digits r1) as [ds rest'] eqn:E. apply digits_length in E.
  destruct ds; [discriminate|]. injection H as <- <-. cbn. lia.
Qed.

Lemma match_number_spec (s : string) :
  match_number s <> Raise RecursionError /\
  forall v rest, match_number s = Ok (v, rest) -> (len rest < len s)%nat.
Proof.
  unfold match_number.
  match goal with
  | |- context [let '(_, _) := ?p in _] => destruct p as [sign s1] eqn:Hp
  end.
  assert (Hs1 : (len s1 <= len s)%nat).
  { destruct s as [|c r]; [injection Hp as <- <-; lia|].
    destruct (is_char 45 c); injection Hp as <- <-; cbn; lia. }
  destruct (int_part s1) as [[ip s2]|] eqn:Hip; [|split; [discriminate|discriminate]].
  apply int_part_length in Hip.
  match goal with
  | |- context [let '(_, _) := ?p in _] => destruct p as [fp s3] eqn:Hfp
  end.
  assert (Hs3 : (len s3 <= len s2)%nat).
  { destruct (frac_part s2) as [[fd r]|] eqn:E.
    - apply frac_part_length in E. injection Hfp as <- <-. lia.
    - injection Hfp as <- <-. lia. }
  match goal with
  | |- context [let '(_, _) := ?p in _] => destruct p as [ep s4] eqn:Hep
  end.
  assert (Hs4 : (len s4 <= len s3)%nat).
  { destruct (exp_part s3) as [[x r]|] eqn:E.
    - apply exp_part_length in E. injection Hep as <- <-. lia.
    - injection Hep as <- <-. lia. }
  split.
  - destruct fp, ep; discriminate.
  - intros v rest H. destruct fp, ep; injection H as <- <-; lia.
Qed.

(** Turn the equations left by the case splits into facts about lengths;
    [IHscan], [IHobj] and [IHarr] are the induction hypotheses. *)
Ltac bound_arg s :=
  lazymatch s with
  | skip_ws ?r => pose proof (skip_ws_length r)
  | _ => idtac
  end.

Ltac length_facts IHscan IHobj IHarr :=
  repeat match goal with
    | E : scanstring ?r = Ok (_, _) |- _ =>
        apply (scanstring_length (len r)) in E; [|lia]
    | E : skip_ws ?r = String _ _ |- _ =>
        generalize (skip_ws_length r); rewrite E; clear E; intro
    | E : scan_once ?n ?s = Ok (_, _) |- _ =>
        let Hlt := fresh "Hlt" in
        assert (Hlt : (2 * len s < n)%nat)
          by (bound_arg s; cbn [String.length] in *; lia);
        apply (proj2 (IHscan s Hlt)) in E
    | E : object_members ?n ?d ?s = Ok (_, _) |- _ =>
        let Hlt := fresh "Hlt" in
        assert (Hlt : (2 * len s < n)%nat)
          by (bound_arg s; cbn [String.length] in *; lia);
        apply (proj2 (IHobj d s Hlt)) in E
    | E : array_items ?n ?a ?s = Ok (_, _) |- _ =>
        let Hlt := fresh "Hlt" in
        assert (Hlt : (2 * len s + 1 < n)%nat)
          by (bound_arg s; cbn [String.length] in *; lia);
        apply (proj2 (IHarr a s Hlt)) in E
    end.

(** Close a branch that claims a reader ran out of fuel. *)
Ltac no_recursion_error IHscan IHobj IHarr :=
  length_facts IHscan IHobj IHarr;
  match goal with
  | E : scanstring ?r = Raise RecursionError |- _ =>
      exact (scanstring_no_recursion_error (len r) r (Nat.le_refl _) E)
  | E : match_number ?s = Raise RecursionError |- _ =>
      exact (proj1 (match_number_spec s) E)
  | E : scan_once ?n ?s = Raise RecursionError |- _ =>
      refine (proj1 (IHscan s _) E);
      bound_arg s; cbn [String.length] in *; lia
  | E : object_members ?n ?d ?s = Raise RecursionError |- _ =>
      refine (proj1 (IHobj d s _) E);
      bound_arg s; cbn [String.length] in *; lia
  | E : array_items ?n ?a ?s = Raise RecursionError |- _ =>
      refine (proj1 (IHarr a s _) E);
      bound_arg s; cbn [String.length] in *; lia
  end.

(** Close a branch that returned the text [rest]. *)
Ltac shorter IHscan IHobj IHarr :=
  length_facts IHscan IHobj IHarr;
  repeat match goal with
    | E : keyword _ = Some _ |- _ => apply keyword_length in E
    | E : match_number ?s = Ok _ |- _ => apply (proj2 (match_number_spec s)) in E
    end;
  repeat match goal with
    | _ : context [skip_ws ?r] |- _ =>
        pose proof (skip_ws_length r); generalize dependent (skip_ws r); intros
    | |- context [skip_ws ?r] =>
        pose proof (skip_ws_length r); generalize dependent (skip_ws r); intros
    end;
  cbn [String.length] in *; lia.

Ltac open_result H :=
  repeat split_head H; try discriminate H;
  try (injection H; clear H; intros; subst).

Lemma scanner_consumes (n : nat) :
  (forall s, (2 * len s < n)%nat -> consumes (scan_once n s) s) /\
  (forall d s, (2 * len s < n)%nat -> consumes (object_members n d s) s) /\
  (forall acc s, (2 * len s + 1 < n)%nat -> consumes (array_items n acc s) s).
Proof.
  induction n as [|n (IHscan & IHobj & IHarr)];
    [split; [|split]; intros; lia|].
  split; [|split].
  - intros s Hs. destruct s as [|c r]; cbn [scan_once];
      (split; [intros H | intros v rest H]); try discriminate H.
    + open_result H; no_recursion_error IHscan IHobj IHarr.
    + open_result H; shorter IHscan IHobj IHarr.
  - intros d s Hs. destruct s as [|q r]; cbn [object_members];
      (split; [intros H | intros v rest H]); try discriminate H.
    + open_result H; no_recursion_error IHscan IHobj IHarr.
    + open_result H; shorter IHscan IHobj IHarr.
  - intros acc s Hs. cbn [array_items].
    split; [intros H | intros v rest H].
    + open_result H; no_recursion_error IHscan IHobj IHarr.
    + open_result H; shorter IHscan IHobj IHarr.
Qed.

(** The fuel of [json_loads] is enough: it never ends with the marker of a
    scanner that ran out of it. *)
Lemma json_loads_fuel (s : string) : json_loads s <> Raise RecursionError.
Proof.
  unfold json_loads. intros H.
  destruct (strip_prefix bom s); [discriminate|].
  destruct (scan_once (S (2 * len s)) (skip_ws s)) as [[v rest]|e] eqn:E;
    cbn [bind] in H.
  - destruct (skip_ws rest); discriminate.
  - injection H as ->.
    pose proof (skip_ws_length s).
    refine (proj1 (proj1 (scanner_consumes _) (skip_ws s) _) E). lia.
Qed.

(** The decoder on a few texts: a duplicate key keeps its first place and
    its last value, an escaped surrogate pair is one code point, a trailing
    comma and a leading zero are errors, and a literal too small for a
    double is a float that counts as false. *)
Example json_loads_samples :
  json_loads (json_text "{'a': 1, 'b': [true, null], 'a': -2.50e1}")
  = Ok (VDict [("a", VFloat (FDec (-250) (-1)));
               ("b", VList [VBool true; VNone])])
  /\ json_loads (json_text "'\ud83d\ude00'") = Ok (VStr "😀")
  /\ json_loads "[1,]" = Raise JSONDecodeError
  /\ json_loads "01" = Raise JSONDecodeError
  /\ (let* v := json_loads "1e-400" in Ok (truthy v)) = Ok false.
Proof. vm_compute. repeat split; reflexivity. Qed.

(** ** [prepare_messages] *)

Lemma fold_append {A : Type} (f : A -> value) (l : list A) (acc : list value) :
  fold_left (fun messages x => append messages (f x)) l acc = acc ++ map f l.
Proof.
  revert acc; induction l as [|x l IH]; intros acc; cbn [fold_left map].
  - now rewrite app_nil_r.
  - rewrite IH. unfold append. now rewrite <- app_assoc.
Qed.

Lemma prepare_messages_unfold (queries context : list string)
    (conversation : list conversation_item) :
  prepare_messages queries context conversation
  = system_message
      :: map (fun m => chat_message (type m) (content m)) conversation
      ++ [chat_message "user" (user_content (join " " context) (join " " queries))].
Proof.
  unfold prepare_messages. rewrite fold_append. reflexivity.
Qed.

(** [join] puts the separator between neighbours and nothing else. *)
Lemma join_cons (sep x y : string) (l : list string) :
  join sep (x :: y :: l) = x +:+ sep +:+ join sep (y :: l).
Proof. reflexivity. Qed.

Lemma append_cons (x : ascii) (a b : string) :
  String x a +:+ b = String x (a +:+ b).
Proof. reflexivity. Qed.

Lemma append_assoc (a b c : string) : (a +:+ b) +:+ c = a +:+ b +:+ c.
Proof.
  induction a as [|x a IH]; [reflexivity|].
  rewrite !append_cons. now f_equal.
Qed.

Lemma append_empty_r (a : string) : a +:+ EmptyString = a.
Proof.
  induction a as [|x a IH]; [reflexivity|].
  rewrite append_cons. now f_equal.
Qed.

Lemma occurs_in_join (sep x : string) (l : list string) :
  In x l -> occurs_in x (join sep l).
Proof.
  induction l as [|y l IH]; intros Hin; [destruct Hin|].
  destruct l as [|z l].
  - destruct Hin as [->|[]]. exists EmptyString, EmptyString.
    cbn [join]. now rewrite append_empty_r.
  - rewrite join_cons. destruct Hin as [->|Hin].
    + exists EmptyString, (sep +:+ join sep (z :: l)). reflexivity.
    + destruct (IH Hin) as (before & after & E). rewrite E.
      exists (y +:+ sep +:+ before), after.
      now rewrite !append_assoc.
Qed.

Lemma occurs_in_trans (x y z : string) :
  occurs_in x y -> occurs_in y z -> occurs_in x z.
Proof.
  intros (b1 & a1 & ->) (b2 & a2 & ->).
  exists (b2 +:+ b1), (a1 +:+ a2). now rewrite !append_assoc.
Qed.

(** Nothing is escaped: a space inside a query is as good as a boundary
    between two queries, and a quote inside a query lands in the content
    as it is. *)
Example join_does_not_escape :
  join " " ["a b"; "c"] = join " " ["a"; "b"; "c"]
  /\ user_content "ctx" (join " " ["it's"; "ok"])
     = "With this provided context: 'ctx' Please judge this instructor: 'it's ok'".
Proof. split; reflexivity. Qed.

(** C5: for all query and context lists (non-empty ones in particular) the
    last entry of the message list built by [prepare_messages] is the
    message with role "user" whose content is the fixed template around the
    context strings joined with single spaces and the query strings joined
    with single spaces.  Both joined strings occur in the content, and
    nothing is escaped: [join] only puts one space between neighbours, so
    every query and every context string occurs in the content character
    for character, whatever separators it contains. *)
Theorem prepare_messages_final_user (queries context : list string)
    (conversation : list conversation_item) :
  let body :=
    "With this provided context: '" +:+ join " " context
    +:+ "' Please judge this instructor: '" +:+ join " " queries +:+ "'" in
  last (prepare_messages queries context conversation)
  = Some (VDict [("role", VStr "user"); ("content", VStr body)])
  /\ occurs_in (join " " context) body
  /\ occurs_in (join " " queries) body
  /\ (forall x y l, join " " (x :: y :: l) = x +:+ " " +:+ join " " (y :: l))
  /\ (forall x, join " " [x] = x)
  /\ (forall x, In x context \/ In x queries -> occurs_in x body).
Proof.
  intros body.
  assert (Hc : occurs_in (join " " context) body).
  { exists "With this provided context: '",
      ("' Please judge this instructor: '" +:+ join " " queries +:+ "'").
    reflexivity. }
  assert (Hq : occurs_in (join " " queries) body).
  { exists ("With this provided context: '" +:+ join " " context
            +:+ "' Please judge this instructor: '"), "'".
    subst body. now rewrite !append_assoc. }
  repeat split; try assumption.
  - rewrite prepare_messages_unfold, app_comm_cons. apply last_snoc.
  - intros x [Hin|Hin]; eapply occurs_in_trans;
      eauto using occurs_in_join.
Qed.

(** C6: for every conversation history the message list is the one fixed
    system message, then the history entries mapped to (role, content)
    dicts in their original order, then the single new user message. *)
Theorem prepare_messages_order (queries context : list string)
    (conversation : list conversation_item) :
  prepare_messages queries context conversation
  = [VDict [("role", VStr "system"); ("content", VStr evaluate_instructor)]]
    ++ map (fun m => VDict [("role", VStr (type m)); ("content", VStr (content m))])
           conversation
    ++ [VDict [("role", VStr "user");
               ("content",
                VStr (user_content (join " " context) (join " " queries)))]].
Proof. apply prepare_messages_unfold. Qed.

(** ** The read loop *)

Lemma consume_cons_ok (line : string) (item : value) (rest : list string)
    (broken : option exn) :
  consume_line line = Ok item ->
  consume (line :: rest) broken
  = {| trace := Yield item :: trace (consume rest broken);
       raised := raised (consume rest broken) |}.
Proof. intros H. cbn [consume]. now rewrite H. Qed.

Lemma consume_cons_raise (line : string) (e : exn) (rest : list string)
    (broken : option exn) :
  consume_line line = Raise e ->
  consume (line :: rest) broken = {| trace := []; raised := Some e |}.
Proof. intros H. cbn [consume]. now rewrite H. Qed.

(** Lines read without an exception are followed by the rest of the body. *)
Lemma consume_app (before after : list string) (broken : option exn) :
  raised (consume before None) = None ->
  consume (before ++ after) broken
  = {| trace := trace (consume before None) ++ trace (consume after broken);
       raised := raised (consume after broken) |}.
Proof.
  induction before as [|line before IH]; cbn [consume app]; intros H.
  - now destruct (consume after broken).
  - destruct (consume_line line) as [item|e]; cbn [trace raised] in *.
    + now rewrite (IH H).
    + discriminate.
Qed.

(** An exception stops the loop: what was yielded before stays. *)
Lemma consume_app_raised (before after : list string) (broken : option exn)
    (e : exn) :
  raised (consume before None) = Some e ->
  consume (before ++ after) broken = consume before None.
Proof.
  induction before as [|line before IH]; cbn [consume app]; intros H.
  - discriminate.
  - destruct (consume_line line) as [item|e']; cbn [trace raised] in *.
    + now rewrite (IH H).
    + reflexivity.
Qed.

(** One fragment per line read. *)
Lemma consume_length (content : list string) :
  raised (consume content None) = None ->
  length (trace (consume content None)) = length content.
Proof.
  induction content as [|line content IH]; cbn [consume]; [reflexivity|].
  destruct (consume_line line); cbn [trace raised length]; [|discriminate].
  intros H. now rewrite IH.
Qed.

(** The loop posts nothing and yields one item per event. *)
Lemma consume_trace (content : list string) (broken : option exn) :
  trace (consume content broken)
  = map Yield (yields (consume content broken)).
Proof.
  unfold yields.
  induction content as [|line content IH]; cbn [consume]; [reflexivity|].
  destruct (consume_line line); cbn [trace flat_map map app]; [|reflexivity].
  now rewrite <- IH.
Qed.

Lemma yields_app (t1 t2 : list event) (r1 r2 : option exn) :
  yields {| trace := t1 ++ t2; raised := r1 |}
  = yields {| trace := t1; raised := r2 |}
    ++ yields {| trace := t2; raised := r2 |}.
Proof. unfold yields. cbn [trace]. apply flat_map_app. Qed.

Lemma yields_trace (r : run) (o : option exn) :
  yields {| trace := trace r; raised := o |} = yields r.
Proof. reflexivity. Qed.

(** ** [generate_stream] on its two paths *)

(** With the endpoint configured, the call posts one request and then
    runs the read loop on the response. *)
Lemma generate_stream_served (environ : gmap string string)
    (post : string -> value -> response) (queries context : list string)
    (conversation : option (list conversation_item))
    (content : list string) (broken : option exn) :
  serves environ post queries context conversation content broken ->
  generate_stream environ post queries context conversation
  = {| trace := Post (api_url environ)
                     (request_data environ queries context conversation)
                :: trace (consume content broken);
       raised := raised (consume content broken) |}.
Proof.
  intros [Hurl Hpost]. unfold generate_stream.
  rewrite Hurl. unfold api_url, request_data in Hpost. rewrite Hpost.
  reflexivity.
Qed.

Lemma yields_served (environ : gmap string string)
    (post : string -> value -> response) (queries context : list string)
    (conversation : option (list conversation_item))
    (content : list string) (broken : option exn) :
  serves environ post queries context conversation content broken ->
  yields (generate_stream environ post queries context conversation)
  = yields (consume content broken)
  /\ raised (generate_stream environ post queries context conversation)
     = raised (consume content broken).
Proof.
  intros H. rewrite (generate_stream_served _ _ _ _ _ _ _ H).
  split; reflexivity.
Qed.

(** With the endpoint missing, the call yields the error fragment and then
    goes on to post its request to the bare path. *)
Lemma generate_stream_missing_url (environ : gmap string string)
    (post : string -> value -> response) (queries context : list string)
    (conversation : option (list conversation_item)) :
  environ_get environ "OLLAMA_URL" EmptyString = EmptyString ->
  exists rest,
    trace (generate_stream environ post queries context conversation)
    = Yield (fragment (VStr "Missing Ollama URL") "stop")
        :: Post "/api/chat" (request_data environ queries context conversation)
        :: rest.
Proof.
  intros Hurl. unfold generate_stream. rewrite Hurl.
  change (String.eqb EmptyString EmptyString) with true. cbv iota.
  change (EmptyString +:+ "/api/chat") with "/api/chat".
  fold (request_data environ queries context conversation).
  destruct (post _ _); cbn [trace app]; eauto.
Qed.

(** ** Missing endpoint configuration *)

(** C1: with [OLLAMA_URL] unset the call yields the fragment
    ("Missing Ollama URL", "stop") and does not end there: for every
    transport the next thing it does is post its request to "/api/chat".
    When the transport refuses that request the exception reaches the
    caller; when it answers, the lines of the answer are read and yielded
    as further fragments. *)
Theorem missing_url_falls_through :
  (forall post queries context conversation,
      exists rest,
        trace (generate_stream ∅ post queries context conversation)
        = Yield (fragment (VStr "Missing Ollama URL") "stop")
            :: Post "/api/chat" (request_data ∅ queries context conversation)
            :: rest)
  /\ generate_stream ∅ (refusing (ClientError "InvalidURL")) ["q"] ["c"] None
     = {| trace := [Yield (fragment (VStr "Missing Ollama URL") "stop");
                    Post "/api/chat" (request_data ∅ ["q"] ["c"] None)];
          raised := Some (ClientError "InvalidURL") |}
  /\ yields (generate_stream ∅
               (answering [json_text "{'message':{'content':'Hel'},'done':false}"]
                          None)
               ["q"] ["c"] None)
     = [fragment (VStr "Missing Ollama URL") "stop";
        fragment (VStr "Hel") EmptyString].
Proof.
  split; [|split].
  - intros. now apply generate_stream_missing_url.
  - reflexivity.
  - vm_compute. reflexivity.
Qed.

(** ** Reading the response *)

(** C2: a response body of exactly the three NDJSON lines below (written
    with apostrophes for quotation marks), each as it stands or ended by a
    newline, makes [generate_stream] yield exactly three fragments, in this
    order: text "Hel" with an empty finish_reason, text "lo" with an empty
    finish_reason, and the empty text with finish_reason "stop"; the call
    ends without an exception. *)
Theorem three_line_body (environ : gmap string string)
    (post : string -> value -> response) (queries context : list string)
    (conversation : option (list conversation_item)) (eol : string) :
  eol = EmptyString \/ eol = nl ->
  serves environ post queries context conversation
    [json_text "{'message':{'content':'Hel'},'done':false}" +:+ eol;
     json_text "{'message':{'content':'lo'},'done':false}" +:+ eol;
     json_text "{'message':{'content':''},'done':true}" +:+ eol]
    None ->
  yields (generate_stream environ post queries context conversation)
  = [fragment (VStr "Hel") EmptyString;
     fragment (VStr "lo") EmptyString;
     fragment (VStr EmptyString) "stop"]
  /\ raised (generate_stream environ post queries context conversation) = None.
Proof.
  intros Heol H. apply yields_served in H. destruct H as [-> ->].
  destruct Heol as [-> | ->]; vm_compute; split; reflexivity.
Qed.

Lemma three_line_body_witness :
  yields (generate_stream configured
            (answering
               [json_text "{'message':{'content':'Hel'},'done':false}" +:+ nl;
                json_text "{'message':{'content':'lo'},'done':false}" +:+ nl;
                json_text "{'message':{'content':''},'done':true}" +:+ nl]
               None)
            ["Is the lesson clear?"] ["Today we cover photosynthesis."] None)
  = [fragment (VStr "Hel") EmptyString;
     fragment (VStr "lo") EmptyString;
     fragment (VStr EmptyString) "stop"]
  /\ raised (generate_stream configured
               (answering
                  [json_text "{'message':{'content':'Hel'},'done':false}" +:+ nl;
                   json_text "{'message':{'content':'lo'},'done':false}" +:+ nl;
                   json_text "{'message':{'content':''},'done':true}" +:+ nl]
                  None)
               ["Is the lesson clear?"] ["Today we cover photosynthesis."] None)
     = None.
Proof.
  apply (three_line_body configured _ _ _ None nl).
  - right. reflexivity.
  - split; [vm_compute; reflexivity | reflexivity].
Defined.

(** What the loop body does with a line that holds a JSON object. *)
Lemma consume_line_object (line : string) (d : dict) :
  nonempty (strip line) = true ->
  loads_line line = Ok (VDict d) ->
  consume_line line
  = match object_text d with
    | Some text =>
        Ok (fragment text (if truthy (object_done d) then "stop" else EmptyString))
    | None => Raise AttributeError
    end.
Proof.
  intros Hline Hload. unfold consume_line. rewrite Hline.
  unfold loads_line in Hload.
  destruct (decode_utf8 line) as [text|e]; cbn [bind] in *; [|discriminate].
  rewrite Hload. cbn [bind get]. unfold object_text, object_done.
  destruct (dict_lookup "message" d) as [[| | | | |l|m]|]; reflexivity.
Qed.

Lemma consume_line_blank (line : string) :
  nonempty (strip line) = false ->
  consume_line line = Ok (fragment (VStr EmptyString) "stop").
Proof. intros H. unfold consume_line. now rewrite H. Qed.

Lemma consume_line_malformed (line : string) (e : exn) :
  nonempty (strip line) = true ->
  loads_line line = Raise e ->
  consume_line line = Raise e.
Proof.
  intros Hline Hload. unfold consume_line. rewrite Hline.
  unfold loads_line in Hload.
  destruct (decode_utf8 line) as [text|e']; cbn [bind] in *;
    [now rewrite Hload | exact Hload].
Qed.

(** The fragments of a body split around one of its lines. *)
Lemma yields_around (before after : list string) (line : string)
    (item : value) (broken : option exn) :
  raised (consume before None) = None ->
  consume_line line = Ok item ->
  yields (consume (before ++ line :: after) broken)
  = yields (consume before None) ++ item :: yields (consume after broken)
  /\ raised (consume (before ++ line :: after) broken)
     = raised (consume after broken).
Proof.
  intros Hbefore Hline. rewrite (consume_app _ _ _ Hbefore).
  rewrite (consume_cons_ok _ _ _ _ Hline). cbn [trace raised].
  split; [|reflexivity].
  rewrite (yields_app _ _ _ None). now rewrite !yields_trace.
Qed.

(** C3, as stated, fails on two objects.  The line {'message':'hi'} parses
    to an object, but no fragment is emitted for it: the content is looked
    up in a [str], which raises [AttributeError].  The line
    {'message':{'content':'x'},'done':'no'} parses to an object whose done
    field is the string 'no', not true, and the fragment emitted for it is
    marked complete. *)
Lemma parsed_object_counterexample :
  (nonempty (strip (json_text "{'message':'hi'}")) = true
   /\ loads_line (json_text "{'message':'hi'}")
      = Ok (VDict [("message", VStr "hi")])
   /\ consume_line (json_text "{'message':'hi'}") = Raise AttributeError)
  /\ (nonempty (strip (json_text "{'message':{'content':'x'},'done':'no'}")) = true
      /\ loads_line (json_text "{'message':{'content':'x'},'done':'no'}")
         = Ok (VDict [("message", VDict [("content", VStr "x")]);
                      ("done", VStr "no")])
      /\ consume_line (json_text "{'message':{'content':'x'},'done':'no'}")
         = Ok (fragment (VStr "x") "stop")).
Proof. vm_compute. repeat split; reflexivity. Qed.

(** C3, amended: for every non-blank response line that parses to a JSON
    object whose message field is absent or is itself an object, exactly one
    fragment is emitted at that line's position; its text is the object's
    message.content (the empty string when absent) and its finish_reason is
    "stop" exactly when the object's done field (false when absent) is true
    in Python's sense, so for a boolean done field it is the field itself.
    Text and completion come from the same object and travel in the one
    fragment, also when done is true. *)
Theorem parsed_object_fragment (environ : gmap string string)
    (post : string -> value -> response) (queries context : list string)
    (conversation : option (list conversation_item))
    (before after : list string) (line : string) (broken : option exn)
    (d : dict) (text : value) :
  serves environ post queries context conversation
    (before ++ line :: after) broken ->
  raised (consume before None) = None ->
  nonempty (strip line) = true ->
  loads_line line = Ok (VDict d) ->
  object_text d = Some text ->
  yields (generate_stream environ post queries context conversation)
  = yields (consume before None)
    ++ fragment text (if truthy (object_done d) then "stop" else EmptyString)
    :: yields (consume after broken)
  /\ length (yields (consume before None)) = length before
  /\ (forall b : bool, object_done d = VBool b -> truthy (object_done d) = b).
Proof.
  intros Hserves Hbefore Hline Hload Htext.
  apply yields_served in Hserves. destruct Hserves as [-> _].
  pose proof (consume_line_object _ _ Hline Hload) as Hitem.
  rewrite Htext in Hitem.
  destruct (yields_around before after line _ broken Hbefore Hitem) as [-> _].
  repeat split.
  - rewrite <- (consume_length _ Hbefore), consume_trace. now rewrite length_map.
  - now intros b ->.
Qed.

Lemma parsed_object_fragment_witness :
  yields (generate_stream configured
            (answering
               [json_text "{'message':{'content':'Hel'},'done':false}";
                json_text "{'message':{'content':'lo'},'done':true}";
                json_text "{'done':false}"]
               None)
            ["q"] ["c"] None)
  = yields (consume [json_text "{'message':{'content':'Hel'},'done':false}"] None)
    ++ fragment (VStr "lo") "stop"
    :: yields (consume [json_text "{'done':false}"] None)
  /\ length (yields (consume [json_text "{'message':{'content':'Hel'},'done':false}"]
                       None)) = 1%nat
  /\ (forall b : bool,
         object_done [("message", VDict [("content", VStr "lo")]);
                      ("done", VBool true)] = VBool b ->
         truthy (object_done [("message", VDict [("content", VStr "lo")]);
                              ("done", VBool true)]) = b).
Proof.
  apply (parsed_object_fragment configured
           (answering
              [json_text "{'message':{'content':'Hel'},'done':false}";
               json_text "{'message':{'content':'lo'},'done':true}";
               json_text "{'done':false}"]
              None)
           ["q"] ["c"] None
           [json_text "{'message':{'content':'Hel'},'done':false}"]
           [json_text "{'done':false}"]
           (json_text "{'message':{'content':'lo'},'done':true}")
           None
           [("message", VDict [("content", VStr "lo")]); ("done", VBool true)]
           (VStr "lo")).
  - split; [vm_compute; reflexivity | reflexivity].
  - vm_compute. reflexivity.
  - vm_compute. reflexivity.
  - vm_compute. reflexivity.
  - vm_compute. reflexivity.
Defined.

(** C4: when the response body holds a blank (whitespace-only) line after
    lines that were read without error, [generate_stream] yields at that
    position, after one fragment for each earlier line, an extra fragment
    with empty text and finish_reason "stop", and then goes on: the lines
    after the blank one are read and their fragments yielded as if the body
    had started there. *)
Theorem blank_line_fragment (environ : gmap string string)
    (post : string -> value -> response) (queries context : list string)
    (conversation : option (list conversation_item))
    (before after : list string) (blank : string) (broken : option exn) :
  serves environ post queries context conversation
    (before ++ blank :: after) broken ->
  raised (consume before None) = None ->
  strip blank = EmptyString ->
  yields (generate_stream environ post queries context conversation)
  = yields (consume before None)
    ++ fragment (VStr EmptyString) "stop"
    :: yields (consume after broken)
  /\ length (yields (consume before None)) = length before
  /\ raised (generate_stream environ post queries context conversation)
     = raised (consume after broken).
Proof.
  intros Hserves Hbefore Hblank.
  apply yields_served in Hserves. destruct Hserves as [-> ->].
  assert (Hitem : consume_line blank = Ok (fragment (VStr EmptyString) "stop")).
  { apply consume_line_blank. now rewrite Hblank. }
  destruct (yields_around before after blank _ broken Hbefore Hitem) as [-> ->].
  repeat split.
  rewrite <- (consume_length _ Hbefore), consume_trace. now rewrite length_map.
Qed.

Lemma blank_line_fragment_witness :
  yields (generate_stream configured
            (answering
               [json_text "{'message':{'content':'Hel'},'done':false}" +:+ nl;
                nl;
                json_text "{'message':{'content':'lo'},'done':false}" +:+ nl]
               None)
            ["q"] ["c"] None)
  = yields (consume [json_text "{'message':{'content':'Hel'},'done':false}" +:+ nl]
                    None)
    ++ fragment (VStr EmptyString) "stop"
    :: yields (consume [json_text "{'message':{'content':'lo'},'done':false}" +:+ nl]
                       None)
  /\ length (yields (consume
                       [json_text "{'message':{'content':'Hel'},'done':false}" +:+ nl]
                       None)) = 1%nat
  /\ raised (generate_stream configured
               (answering
                  [json_text "{'message':{'content':'Hel'},'done':false}" +:+ nl;
                   nl;
                   json_text "{'message':{'content':'lo'},'done':false}" +:+ nl]
                  None)
               ["q"] ["c"] None)
     = raised (consume [json_text "{'message':{'content':'lo'},'done':false}" +:+ nl]
                       None).
Proof.
  apply (blank_line_fragment configured
           (answering
              [json_text "{'message':{'content':'Hel'},'done':false}" +:+ nl;
               nl;
               json_text "{'message':{'content':'lo'},'done':false}" +:+ nl]
              None)
           ["q"] ["c"] None
           [json_text "{'message':{'content':'Hel'},'done':false}" +:+ nl]
           [json_text "{'message':{'content':'lo'},'done':false}" +:+ nl]
           nl None).
  - split; [vm_compute; reflexivity | reflexivity].
  - vm_compute. reflexivity.
  - vm_compute. reflexivity.
Defined.

(** The same run, evaluated: three fragments, the middle one for the blank
    line, and the line after it still read. *)
Example blank_line_run :
  yields (generate_stream configured
            (answering
               [json_text "{'message':{'content':'Hel'},'done':false}" +:+ nl;
                nl;
                json_text "{'message':{'content':'lo'},'done':false}" +:+ nl]
               None)
            ["q"] ["c"] None)
  = [fragment (VStr "Hel") EmptyString;
     fragment (VStr EmptyString) "stop";
     fragment (VStr "lo") EmptyString].
Proof. vm_compute. reflexivity. Qed.

(** Lines that the loop body accepts give one fragment each, in order. *)
Lemma consume_all_ok (content : list string) (broken : option exn) :
  Forall (fun line => exists item, consume_line line = Ok item) content ->
  Forall2 (fun line item => consume_line line = Ok item)
          content (yields (consume content broken))
  /\ raised (consume content broken) = broken.
Proof.
  unfold yields.
  induction 1 as [|line content [item Hitem] _ [IH1 IH2]]; cbn [consume].
  - split; [constructor | reflexivity].
  - rewrite Hitem. cbn [trace raised flat_map app].
    split; [constructor; assumption | assumption].
Qed.

(** No more fragments than lines. *)
Lemma consume_yields_bound (content : list string) (broken : option exn) :
  (length (yields (consume content broken)) <= length content)%nat.
Proof.
  unfold yields.
  induction content as [|line content IH]; cbn [consume]; [reflexivity|].
  destruct (consume_line line); cbn [trace flat_map app length]; lia.
Qed.




(** The same run, evaluated: one fragment, then the decoder's exception. *)
Example malformed_line_run :
  generate_stream configured
    (answering
       [json_text "{'message':{'content':'Hel'},'done':false}";
        "{not json";
        json_text "{'message':{'content':'lo'},'done':false}"]
       None)
    [] [] None
  = {| trace := [Post "http://localhost:11434/api/chat"
                      (request_data configured [] [] None);
                 Yield (fragment (VStr "Hel") EmptyString)];
       raised := Some JSONDecodeError |}.
Proof. vm_compute. reflexivity. Qed.

(** ** Determinism *)

(** C8: two calls with the same queries, context and conversation, under
    environments that give the same two configuration values, over
    transports that answer the call's request alike, run alike: the same
    events in the same order, so the same fragment sequence, and the same
    end.  Nothing else in the environment or the transport is looked at. *)
Theorem generate_stream_deterministic
    (environ1 environ2 : gmap string string)
    (post1 post2 : string -> value -> response)
    (queries context : list string)
    (conversation : option (list conversation_item)) :
  environ_get environ1 "OLLAMA_URL" EmptyString
  = environ_get environ2 "OLLAMA_URL" EmptyString ->
  environ_get environ1 "OLLAMA_MODEL" EmptyString
  = environ_get environ2 "OLLAMA_MODEL" EmptyString ->
  post1 (api_url environ1) (request_data environ1 queries context conversation)
  = post2 (api_url environ1) (request_data environ1 queries context conversation) ->
  generate_stream environ1 post1 queries context conversation
  = generate_stream environ2 post2 queries context conversation
  /\ yields (generate_stream environ1 post1 queries context conversation)
     = yields (generate_stream environ2 post2 queries context conversation).
Proof.
  intros Hurl Hmodel Hpost.
  assert (E : generate_stream environ1 post1 queries context conversation
              = generate_stream environ2 post2 queries context conversation).
  { unfold generate_stream. unfold api_url, request_data in Hpost.
    rewrite <- Hurl, <- Hmodel, Hpost. reflexivity. }
  split; [exact E | now rewrite E].
Qed.

Lemma generate_stream_deterministic_witness :
  generate_stream configured
    (answering [json_text "{'message':{'content':'Hel'},'done':true}"] None)
    ["q"] ["c"] None
  = generate_stream (<["HOME" := "/root"]> configured)
      (fun url _ =>
         if String.eqb url "http://localhost:11434/api/chat"
         then Streamed [json_text "{'message':{'content':'Hel'},'done':true}"] None
         else Refused (ClientError "unreachable"))
      ["q"] ["c"] None
  /\ yields (generate_stream configured
               (answering [json_text "{'message':{'content':'Hel'},'done':true}"]
                          None)
               ["q"] ["c"] None)
     = yields (generate_stream (<["HOME" := "/root"]> configured)
                 (fun url _ =>
                    if String.eqb url "http://localhost:11434/api/chat"
                    then Streamed
                           [json_text "{'message':{'content':'Hel'},'done':true}"]
                           None
                    else Refused (ClientError "unreachable"))
                 ["q"] ["c"] None).
Proof.
  apply (generate_stream_deterministic configured
           (<["HOME" := "/root"]> configured)
           (answering [json_text "{'message':{'content':'Hel'},'done':true}"] None)
           (fun url _ =>
              if String.eqb url "http://localhost:11434/api/chat"
              then Streamed [json_text "{'message':{'content':'Hel'},'done':true}"]
                            None
              else Refused (ClientError "unreachable"))
           ["q"] ["c"] None).
  - vm_compute. reflexivity.
  - vm_compute. reflexivity.
  - vm_compute. reflexivity.
Defined.

(** ** Absent conversation *)

Lemma requests_consume (content : list string) (broken : option exn) :
  requests (consume content broken) = [].
Proof.
  unfold requests. rewrite consume_trace.
  induction (yields (consume content broken)) as [|item l IH];
    [reflexivity | exact IH].
Qed.

(** C9: a call without a conversation runs exactly as a call with the empty
    history.  It posts one request, and the message list of that request
    has exactly two entries: the fixed system message followed by the final
    user message. *)
Theorem absent_conversation (environ : gmap string string)
    (post : string -> value -> response) (queries context : list string) :
  generate_stream environ post queries context None
  = generate_stream environ post queries context (Some [])
  /\ requests (generate_stream environ post queries context None)
     = [(environ_get environ "OLLAMA_URL" EmptyString +:+ "/api/chat",
         VDict [("model", VStr (environ_get environ "OLLAMA_MODEL" EmptyString));
                ("messages",
                 VList [chat_message "system" evaluate_instructor;
                        chat_message "user"
                          (user_content (join " " context) (join " " queries))])])].
Proof.
  split; [reflexivity|].
  unfold generate_stream, requests.
  destruct (String.eqb _ EmptyString);
    destruct (post _ _) as [e|content broken];
    cbn [trace app flat_map default]; try reflexivity;
    fold (requests (consume content broken));
    now rewrite requests_consume.
Qed.

(** ** Shape of the fragments *)

Lemma consume_line_shape (line : string) (item : value) :
  consume_line line = Ok item -> well_formed_fragment item.
Proof.
  unfold consume_line. intros H.
  destruct (nonempty (strip line)).
  - unfold bind, get in H. repeat split_head H; try discriminate H.
    all: injection H as <-; eexists _, _; split; [reflexivity|].
    all: destruct (truthy _); auto.
  - injection H as <-. eexists _, _; split; [reflexivity | auto].
Qed.

Lemma consume_shape (content : list string) (broken : option exn) :
  Forall well_formed_fragment (yields (consume content broken)).
Proof.
  unfold yields.
  induction content as [|line content IH]; cbn [consume]; [constructor|].
  destruct (consume_line line) as [item|e] eqn:E; cbn [trace flat_map app];
    [|constructor].
  constructor; [eapply consume_line_shape; eauto | exact IH].
Qed.

(** C10: every item that [generate_stream] yields, on every path (the
    missing-endpoint fragment, a parsed line, a blank line), is a dict with
    exactly the two keys "message" and "finish_reason", in this order, and
    its finish_reason is either the empty string or "stop". *)
Theorem fragment_shape (environ : gmap string string)
    (post : string -> value -> response) (queries context : list string)
    (conversation : option (list conversation_item)) :
  Forall
    (fun item =>
       exists (message : value) (finish_reason : string),
         item = VDict [("message", message); ("finish_reason", VStr finish_reason)]
         /\ (finish_reason = EmptyString \/ finish_reason = "stop"))
    (yields (generate_stream environ post queries context conversation)).
Proof.
  change (Forall well_formed_fragment
            (yields (generate_stream environ post queries context conversation))).
  assert (Hmissing : well_formed_fragment (fragment (VStr "Missing Ollama URL") "stop")).
  { eexists _, _; split; [reflexivity | auto]. }
  unfold generate_stream, yields.
  destruct (String.eqb _ EmptyString);
    destruct (post _ _) as [e|content broken];
    cbn [trace app flat_map];
    repeat constructor; try exact Hmissing;
    apply consume_shape.
Qed.

(** * Further properties *)

(** ** The requests of a call *)

(** X1: every call posts exactly one request, to the configured URL followed
    by "/api/chat", with the model name (empty when unset) and the message
    list of [prepare_messages] as its body.  Nothing is yielded before the
    request except the missing-endpoint fragment, and everything after it
    is a yielded item. *)
Theorem one_request_per_call (environ : gmap string string)
    (post : string -> value -> response) (queries context : list string)
    (conversation : option (list conversation_item)) :
  let r := generate_stream environ post queries context conversation in
  requests r
  = [(environ_get environ "OLLAMA_URL" EmptyString +:+ "/api/chat",
      VDict [("model", VStr (environ_get environ "OLLAMA_MODEL" EmptyString));
             ("messages",
              VList (prepare_messages queries context (default [] conversation)))])]
  /\ exists items,
      trace r
      = map Yield (yielded_first environ)
        ++ Post (api_url environ)
                (request_data environ queries context conversation)
        :: map Yield items.
Proof.
  cbv zeta. unfold generate_stream, requests, yielded_first, missing_url_fragment.
  fold (api_url environ).
  fold (request_data environ queries context conversation).
  destruct (String.eqb _ EmptyString);
    destruct (post _ _) as [e|content broken];
    cbn [trace app flat_map map];
    try fold (requests (consume content broken));
    rewrite ?requests_consume;
    (split; [reflexivity|]).
  1, 3: exists []; reflexivity.
  all: exists (yields (consume content broken)); now rewrite <- consume_trace.
Qed.

(** X2: when the transport refuses the request, the exception it raised is
    the exception the call ends with; no line fragment is yielded and no
    second request is made. *)
Theorem refused_request (environ : gmap string string)
    (post : string -> value -> response) (queries context : list string)
    (conversation : option (list conversation_item)) (e : exn) :
  post (api_url environ) (request_data environ queries context conversation)
  = Refused e ->
  let r := generate_stream environ post queries context conversation in
  raised r = Some e
  /\ yields r = yielded_first environ
  /\ length (requests r) = 1%nat.
Proof.
  intros Hpost. cbv zeta. unfold generate_stream, yielded_first, missing_url_fragment.
  unfold api_url, request_data in Hpost. rewrite Hpost.
  destruct (String.eqb _ EmptyString); repeat split; reflexivity.
Qed.

Lemma refused_request_witness :
  let r := generate_stream configured (refusing (ClientError "connection refused"))
             ["q"] ["c"] None in
  raised r = Some (ClientError "connection refused")
  /\ yields r = yielded_first configured
  /\ length (requests r) = 1%nat.
Proof.
  apply (refused_request configured
           (refusing (ClientError "connection refused")) ["q"] ["c"] None
           (ClientError "connection refused")).
  reflexivity.
Defined.

(** ** Lines and fragments in step *)

Lemma consume_no_exception (content : list string) (broken : option exn) :
  raised (consume content broken) = None ->
  broken = None
  /\ Forall2 (fun line item => consume_line line = Ok item)
             content (yields (consume content broken)).
Proof.
  unfold yields.
  induction content as [|line content IH]; cbn [consume].
  - intros H. split; [exact H | constructor].
  - destruct (consume_line line) as [item|e] eqn:E;
      cbn [trace raised flat_map app]; [|discriminate].
    intros H. destruct (IH H) as [-> IH2]. split; [reflexivity|].
    constructor; assumption.
Qed.

(** X3: when every line of the response body is one the loop body accepts,
    the call yields exactly one fragment per line, in the order of the
    lines, each the fragment of its line, and then ends as the body ends:
    without an exception when the body simply stops (no final marker is
    needed), with the transport's exception when the connection breaks. *)
Theorem clean_stream (environ : gmap string string)
    (post : string -> value -> response) (queries context : list string)
    (conversation : option (list conversation_item))
    (content : list string) (broken : option exn) :
  serves environ post queries context conversation content broken ->
  Forall (fun line => exists item, consume_line line = Ok item) content ->
  let r := generate_stream environ post queries context conversation in
  Forall2 (fun line item => consume_line line = Ok item) content (yields r)
  /\ length (yields r) = length content
  /\ raised r = broken.
Proof.
  intros Hserves Hall. cbv zeta.
  apply yields_served in Hserves. destruct Hserves as [-> ->].
  destruct (consume_all_ok content broken Hall) as [H2 Hr].
  repeat split; try assumption.
  symmetry. eapply Forall2_length; eauto.
Qed.

Lemma clean_stream_witness :
  let r := generate_stream configured
             (answering
                [json_text "{'message':{'content':'Hel'},'done':false}" +:+ nl;
                 json_text "{'message':{'content':'lo'}}" +:+ nl]
                (Some (ClientError "connection reset")))
             ["q"] ["c"] None in
  Forall2 (fun line item => consume_line line = Ok item)
    [json_text "{'message':{'content':'Hel'},'done':false}" +:+ nl;
     json_text "{'message':{'content':'lo'}}" +:+ nl]
    (yields r)
  /\ length (yields r) = 2%nat
  /\ raised r = Some (ClientError "connection reset").
Proof.
  apply (clean_stream configured
           (answering
              [json_text "{'message':{'content':'Hel'},'done':false}" +:+ nl;
               json_text "{'message':{'content':'lo'}}" +:+ nl]
              (Some (ClientError "connection reset")))
           ["q"] ["c"] None
           [json_text "{'message':{'content':'Hel'},'done':false}" +:+ nl;
            json_text "{'message':{'content':'lo'}}" +:+ nl]
           (Some (ClientError "connection reset"))).
  - split; [vm_compute; reflexivity | reflexivity].
  - repeat constructor; eexists; vm_compute; reflexivity.
Defined.

(** X4: a call with the endpoint configured that ends without an exception
    has read the whole body: the connection did not break, and every line
    gave exactly one fragment, in order. *)
Theorem normal_end (environ : gmap string string)
    (post : string -> value -> response) (queries context : list string)
    (conversation : option (list conversation_item))
    (content : list string) (broken : option exn) :
  serves environ post queries context conversation content broken ->
  raised (generate_stream environ post queries context conversation) = None ->
  broken = None
  /\ Forall2 (fun line item => consume_line line = Ok item) content
       (yields (generate_stream environ post queries context conversation))
  /\ length (yields (generate_stream environ post queries context conversation))
     = length content.
Proof.
  intros Hserves. apply yields_served in Hserves. destruct Hserves as [-> ->].
  intros H. destruct (consume_no_exception _ _ H) as [-> H2].
  repeat split; try assumption.
  symmetry. eapply Forall2_length; eauto.
Qed.

Lemma normal_end_witness :
  @None exn = None
  /\ Forall2 (fun line item => consume_line line = Ok item)
       [json_text "{'message':{'content':'Hel'}}"; nl]
       (yields (generate_stream configured
                  (answering [json_text "{'message':{'content':'Hel'}}"; nl] None)
                  ["q"] ["c"] None))
  /\ length (yields (generate_stream configured
                       (answering [json_text "{'message':{'content':'Hel'}}"; nl]
                                  None)
                       ["q"] ["c"] None))
     = 2%nat.
Proof.
  apply (normal_end configured
           (answering [json_text "{'message':{'content':'Hel'}}"; nl] None)
           ["q"] ["c"] None
           [json_text "{'message':{'content':'Hel'}}"; nl] None).
  - split; [vm_compute; reflexivity | reflexivity].
  - vm_compute. reflexivity.
Defined.

(** ** The loop body, line by line *)

Lemma lstrip_blank (s : string) :
  string_forallb is_bytes_space s = true -> lstrip s = EmptyString.
Proof.
  induction s as [|c r IH]; cbn [string_forallb lstrip]; [reflexivity|].
  destruct (is_bytes_space c); [exact IH | discriminate].
Qed.

Lemma rstrip_keeps_head (c : ascii) (r : string) :
  is_bytes_space c = false -> nonempty (rstrip (String c r)) = true.
Proof.
  intros Hc. cbn [rstrip]. destruct (rstrip r); [now rewrite Hc | reflexivity].
Qed.

(** [line.strip()] is empty exactly when every byte is whitespace. *)
Lemma strip_nonempty (s : string) :
  nonempty (strip s) = negb (string_forallb is_bytes_space s).
Proof.
  unfold strip.
  induction s as [|c r IH]; cbn [string_forallb lstrip]; [reflexivity|].
  destruct (is_bytes_space c) eqn:Hc; [exact IH|].
  now rewrite rstrip_keeps_head.
Qed.

(** The loop body in closed form. *)
Lemma consume_line_unfold (line : string) :
  consume_line line
  = if string_forallb is_bytes_space line
    then Ok (fragment (VStr EmptyString) "stop")
    else line_outcome (loads_line line).
Proof.
  unfold consume_line. rewrite strip_nonempty.
  destruct (string_forallb is_bytes_space line); cbn [negb]; [reflexivity|].
  unfold loads_line, line_outcome.
  destruct (decode_utf8 line) as [text|e]; cbn [bind]; [|reflexivity].
  destruct (json_loads text) as [v|e]; cbn [bind]; [|reflexivity].
  destruct v as [| | | | | |d]; cbn [get bind]; try reflexivity.
  unfold object_text, object_done.
  destruct (dict_lookup "message" d) as [[| | | | |l|m]|]; reflexivity.
Qed.

(** X5: what the loop body does with a line, in full.  A line all of whose
    bytes are ASCII whitespace (space, tab, newline, vertical tab, form
    feed, carriage return), the empty line included, gives the fragment
    with empty text and finish_reason "stop" and is never decoded.  Any
    other line is decoded and parsed whole, unstripped: an object whose
    message is absent or an object gives its fragment, any other JSON value
    raises [AttributeError], and a decoding error is passed on as it is. *)
Theorem consume_line_cases (line : string) :
  consume_line line
  = if string_forallb is_bytes_space line
    then Ok (fragment (VStr EmptyString) "stop")
    else match loads_line line with
         | Ok (VDict d) =>
             match object_text d with
             | Some text =>
                 Ok (fragment text
                       (if truthy (object_done d) then "stop" else EmptyString))
             | None => Raise AttributeError
             end
         | Ok _ => Raise AttributeError
         | Raise e => Raise e
         end.
Proof. apply consume_line_unfold. Qed.

(** ** Where an exception can come from *)

(** What makes the loop body raise: never a blank line; otherwise the
    decoder's own exception, or [AttributeError] on a decoded value. *)
Lemma consume_line_raise (line : string) (e : exn) :
  consume_line line = Raise e ->
  string_forallb is_bytes_space line = false
  /\ (loads_line line = Raise e
      \/ e = AttributeError /\ exists v, loads_line line = Ok v).
Proof.
  rewrite consume_line_unfold.
  destruct (string_forallb is_bytes_space line); [discriminate|].
  intros H. split; [reflexivity|].
  destruct (loads_line line) as [v|e'] eqn:E; cbn [line_outcome] in H.
  - right. destruct v as [| | | | | |d]; try (injection H as <-; eauto).
    destruct (object_text d); [discriminate | injection H as <-; eauto].
  - left. exact H.
Qed.

Lemma consume_raised (content : list string) (broken : option exn) (e : exn) :
  raised (consume content broken) = Some e ->
  broken = Some e
  \/ exists line, In line content /\ consume_line line = Raise e.
Proof.
  induction content as [|line content IH]; cbn [consume].
  - intros H. left. exact H.
  - destruct (consume_line line) as [item|e'] eqn:E; cbn [raised].
    + intros H. destruct (IH H) as [Hb | (l & Hin & Hl)]; [left; exact Hb|].
      right. exists l. split; [right; exact Hin | exact Hl].
    + intros [= <-]. right. exists line. split; [left; reflexivity | exact E].
Qed.

(** X6: an exception that ends a call has one of three origins.  It is the
    transport's own: the request was refused with it, or the connection
    broke with it while the body was read.  Or it is the exception that
    decoding a non-blank line of the body raised (from decoding the bytes
    or from [json.loads], whatever that exception is), passed on unchanged.
    Or it is the [AttributeError] of a non-blank line that was decoded to a
    value.  A blank line never raises, and the loop body adds no exception
    of its own besides [AttributeError]. *)
Theorem exception_origin (environ : gmap string string)
    (post : string -> value -> response) (queries context : list string)
    (conversation : option (list conversation_item)) (e : exn) :
  raised (generate_stream environ post queries context conversation) = Some e ->
  post (api_url environ) (request_data environ queries context conversation)
  = Refused e
  \/ exists content broken,
      post (api_url environ) (request_data environ queries context conversation)
      = Streamed content broken
      /\ (broken = Some e
          \/ exists line,
              In line content
              /\ string_forallb is_bytes_space line = false
              /\ (loads_line line = Raise e
                  \/ e = AttributeError /\ exists v, loads_line line = Ok v)).
Proof.
  unfold generate_stream.
  fold (api_url environ).
  fold (request_data environ queries context conversation).
  destruct (post _ _) as [e'|content broken]; cbn [raised].
  - intros [= <-]. left. reflexivity.
  - intros H. right. exists content, broken. split; [reflexivity|].
    apply consume_raised in H. destruct H as [Hb | (line & Hin & Hl)];
      [left; exact Hb|].
    right. exists line. split; [exact Hin|]. now apply consume_line_raise.
Qed.

Lemma exception_origin_witness :
  answering [json_text "{'message':{'content':'Hel'}}"; "{not json"] None
    (api_url configured) (request_data configured ["q"] ["c"] None)
  = Refused JSONDecodeError
  \/ exists content broken,
      answering [json_text "{'message':{'content':'Hel'}}"; "{not json"] None
        (api_url configured) (request_data configured ["q"] ["c"] None)
      = Streamed content broken
      /\ (broken = Some JSONDecodeError
          \/ exists line,
              In line content
              /\ string_forallb is_bytes_space line = false
              /\ (loads_line line = Raise JSONDecodeError
                  \/ JSONDecodeError = AttributeError
                     /\ exists v, loads_line line = Ok v)).
Proof.
  apply (exception_origin configured
           (answering [json_text "{'message':{'content':'Hel'}}"; "{not json"] None)
           ["q"] ["c"] None JSONDecodeError).
  vm_compute. reflexivity.
Defined.

(** X7: when the decoder returns, for a non-blank line, a value of the wrong
    shape (a value that is not a dict, or a dict whose message is present
    and not a dict), the call ends with [AttributeError] at that line.
    With the lines before all accepted, the fragments delivered are exactly
    those of the earlier lines, one per line and in order, and nothing is
    yielded for that line or for the lines after it. *)
Theorem wrong_shape_raises (environ : gmap string string)
    (post : string -> value -> response) (queries context : list string)
    (conversation : option (list conversation_item))
    (before after : list string) (line : string) (broken : option exn)
    (v : value) :
  serves environ post queries context conversation
    (before ++ line :: after) broken ->
  Forall (fun l => exists item, consume_line l = Ok item) before ->
  string_forallb is_bytes_space line = false ->
  loads_line line = Ok v ->
  (forall d, v = VDict d -> object_text d = None) ->
  let r := generate_stream environ post queries context conversation in
  raised r = Some AttributeError
  /\ Forall2 (fun l item => consume_line l = Ok item) before (yields r)
  /\ length (yields r) = length before.
Proof.
  intros Hserves Hall Hline Hload Hshape. cbv zeta.
  apply yields_served in Hserves. destruct Hserves as [-> ->].
  assert (Hbad : consume_line line = Raise AttributeError).
  { rewrite consume_line_unfold, Hline, Hload.
    destruct v as [| | | | | |d]; try reflexivity.
    cbn [line_outcome]. now rewrite (Hshape d eq_refl). }
  destruct (consume_all_ok before None Hall) as [H2 Hbefore].
  rewrite (consume_app _ _ _ Hbefore).
  rewrite (consume_cons_raise _ _ _ _ Hbad). cbn [trace raised].
  rewrite app_nil_r, yields_trace.
  split; [reflexivity|]. split; [exact H2|].
  symmetry. eapply Forall2_length; eauto.
Qed.

Lemma wrong_shape_raises_witness :
  let r := generate_stream configured
             (answering
                [json_text "{'message':{'content':'Hel'}}"; "[1, 2]";
                 json_text "{'message':{'content':'lo'}}"]
                None)
             ["q"] ["c"] None in
  raised r = Some AttributeError
  /\ Forall2 (fun l item => consume_line l = Ok item)
       [json_text "{'message':{'content':'Hel'}}"] (yields r)
  /\ length (yields r) = 1%nat.
Proof.
  apply (wrong_shape_raises configured
           (answering
              [json_text "{'message':{'content':'Hel'}}"; "[1, 2]";
               json_text "{'message':{'content':'lo'}}"]
              None)
           ["q"] ["c"] None
           [json_text "{'message':{'content':'Hel'}}"]
           [json_text "{'message':{'content':'lo'}}"]
           "[1, 2]" None (VList [VInt 1; VInt 2])).
  - split; [vm_compute; reflexivity | reflexivity].
  - repeat constructor; eexists; vm_compute; reflexivity.
  - vm_compute. reflexivity.
  - vm_compute. reflexivity.
  - intros d H. discriminate H.
Defined.

(** ** More on [prepare_messages] *)

(** X9: the message list has two entries more than the history, and every
    entry is a dict with exactly the keys "role" and "content", both holding
    strings; the role of a history entry is its [type], whatever it is. *)
Theorem prepare_messages_shape (queries context : list string)
    (conversation : list conversation_item) :
  length (prepare_messages queries context conversation)
  = S (S (length conversation))
  /\ Forall (fun m => exists role text,
                m = VDict [("role", VStr role); ("content", VStr text)])
            (prepare_messages queries context conversation)
  /\ (forall i item,
         nth_error conversation i = Some item ->
         nth_error (prepare_messages queries context conversation) (S i)
         = Some (VDict [("role", VStr (type item));
                        ("content", VStr (content item))])).
Proof.
  rewrite prepare_messages_unfold. split; [|split].
  - cbn [length]. rewrite length_app, length_map. cbn [length]. lia.
  - constructor; [eexists _, _; reflexivity|].
    apply Forall_app. split.
    + induction conversation as [|item conversation IH]; cbn [map];
        constructor; [eexists _, _; reflexivity | exact IH].
    + constructor; [eexists _, _; reflexivity | constructor].
  - intros i item Hi. cbn [nth_error].
    rewrite nth_error_app1.
    + rewrite nth_error_map, Hi. reflexivity.
    + rewrite length_map. apply nth_error_Some. congruence.
Qed.

Lemma join_split (sep x y : string) (l : list string) :
  join sep ((x +:+ sep +:+ y) :: l) = join sep (x :: y :: l).
Proof.
  destruct l as [|z l]; [reflexivity|].
  rewrite !join_cons. now rewrite !append_assoc.
Qed.

Lemma join_app (sep : string) (l1 l2 : list string) :
  l1 <> [] -> l2 <> [] ->
  join sep (l1 ++ l2) = join sep l1 +:+ sep +:+ join sep l2.
Proof.
  intros H1 H2. induction l1 as [|x l1 IH]; [congruence|].
  destruct l1 as [|y l1].
  - destruct l2 as [|z l2]; [congruence | reflexivity].
  - change ((x :: y :: l1) ++ l2) with (x :: y :: (l1 ++ l2)).
    rewrite !join_cons. change (y :: l1 ++ l2) with ((y :: l1) ++ l2).
    rewrite IH by discriminate. now rewrite !append_assoc.
Qed.

(** X10: the boundaries between queries, and between context strings, are
    lost in the message list.  Two neighbouring queries and the one query
    made of them with a space in between give the same message list, and so
    do a list of queries split in two and the two joined texts passed as
    two queries; the same holds for the context. *)
Theorem query_boundaries_lost (x y : string) (queries context : list string)
    (conversation : list conversation_item) :
  prepare_messages ((x +:+ " " +:+ y) :: queries) context conversation
  = prepare_messages (x :: y :: queries) context conversation
  /\ prepare_messages queries ((x +:+ " " +:+ y) :: context) conversation
     = prepare_messages queries (x :: y :: context) conversation
  /\ (forall q1 q2, q1 <> [] -> q2 <> [] ->
         prepare_messages (q1 ++ q2) context conversation
         = prepare_messages [join " " q1; join " " q2] context conversation)
  /\ (forall c1 c2, c1 <> [] -> c2 <> [] ->
         prepare_messages queries (c1 ++ c2) conversation
         = prepare_messages queries [join " " c1; join " " c2] conversation).
Proof.
  rewrite !prepare_messages_unfold, !join_split.
  split; [reflexivity|]. split; [reflexivity|].
  split; intros l1 l2 H1 H2; rewrite !prepare_messages_unfold;
    now rewrite (join_app _ _ _ H1 H2).
Qed.

(** ** The configuration a call reads *)

(** X11: the two variables that [__init__] lists in [requires_env] are all
    a call reads of the environment: under two environments that agree on
    them, a call does the same, event for event. *)
Theorem requires_env_sufficient (environ1 environ2 : gmap string string)
    (post : string -> value -> response) (queries context : list string)
    (conversation : option (list conversation_item)) :
  (forall key, In key (requires_env __init__) ->
               environ1 !! key = environ2 !! key) ->
  generate_stream environ1 post queries context conversation
  = generate_stream environ2 post queries context conversation.
Proof.
  intros H. unfold generate_stream, environ_get.
  rewrite (H "OLLAMA_URL") by (cbn; auto).
  rewrite (H "OLLAMA_MODEL") by (cbn; auto).
  reflexivity.
Qed.

Lemma requires_env_sufficient_witness :
  generate_stream configured
    (answering [json_text "{'message':{'content':'Hel'}}"] None) ["q"] ["c"] None
  = generate_stream (<["PATH" := "/usr/bin"]> configured)
      (answering [json_text "{'message':{'content':'Hel'}}"] None) ["q"] ["c"] None.
Proof.
  apply (requires_env_sufficient configured (<["PATH" := "/usr/bin"]> configured)
           (answering [json_text "{'message':{'content':'Hel'}}"] None)
           ["q"] ["c"] None).
  intros key [<- | [<- | []]]; vm_compute; reflexivity.
Defined.

(** ** Whitespace around a line *)

Ltac sync_goal :=
  repeat first
    [ rewrite append_cons
    | progress cbv beta iota zeta
    | progress cbn [bind]
    | match goal with
      | E : ?x = _ |- context [?x] => rewrite E
      end ].

Lemma append_nil_l (t : string) : EmptyString +:+ t = t.
Proof. reflexivity. Qed.

Lemma is_char_distinct (a b : Z) (c : ascii) :
  a <> b -> is_char a c = true -> is_char b c = false.
Proof. unfold is_char. intros Hab H. apply Z.eqb_eq in H. apply Z.eqb_neq. lia. Qed.

(** A one-character text that [scanstring] accepts is the closing quote. *)
Lemma scanstring_single (a : ascii) (x rest : string) :
  scanstring (String a EmptyString) = Ok (x, rest) -> is_char 92 a = false.
Proof.
  cbn [scanstring]. intros H.
  destruct (is_char 34 a) eqn:Hq;
    [now apply (is_char_distinct 34 92) in Hq|].
  destruct (is_char 92 a); [discriminate | reflexivity].
Qed.

Lemma scanstring_app (n : nat) :
  forall s x rest t, (len s <= n)%nat -> scanstring s = Ok (x, rest) ->
                     scanstring (s +:+ t) = Ok (x, rest +:+ t).
Proof.
  induction n as [|n IH]; intros s x rest t Hn H.
  - destruct s; cbn in *; [discriminate | lia].
  - destruct s as [|c r]; cbn [scanstring] in H; [discriminate|].
    rewrite append_cons. cbn [scanstring].
    repeat split_head H; try discriminate H;
      injection H as <- <-; subst; cbn [String.length] in *;
      try match goal with
          | E : scanstring EmptyString = Ok _ |- _ => discriminate E
          end;
      try match goal with
          | E : scanstring (String ?a EmptyString) = Ok _ |- _ =>
              pose proof (scanstring_single _ _ _ E)
          end;
      repeat match goal with
             | E : scanstring ?r = Ok _ |- _ =>
                 apply (IH _ _ _ t) in E; [|cbn [String.length]; lia]
             end;
      rewrite ?append_cons in *; sync_goal; cbn [bind]; try reflexivity.
    rewrite append_nil_l. destruct t; sync_goal; reflexivity.
Qed.

Lemma ws_not (z : Z) (c : ascii) :
  z <> 32 -> z <> 9 -> z <> 10 -> z <> 13 ->
  is_json_ws c = true -> is_char z c = false.
Proof.
  unfold is_json_ws, is_char. intros H1 H2 H3 H4 H.
  apply Z.eqb_neq. intros E. rewrite E in H.
  repeat match type of H with
         | context [z =? ?k] =>
             replace (z =? k) with false in H by (symmetry; apply Z.eqb_neq; lia)
         end.
  discriminate H.
Qed.

Lemma ws_not_digit (c : ascii) : is_json_ws c = true -> is_digit c = false.
Proof.
  unfold is_json_ws, is_char, is_digit, in_range. intros H.
  repeat match type of H with
         | (_ || _) = true => apply orb_true_iff in H; destruct H as [H|H]
         end; apply Z.eqb_eq in H; rewrite H; reflexivity.
Qed.

(** What the readers make of a text that is all JSON whitespace. *)
Lemma ws_readers (u : string) :
  string_forallb is_json_ws u = true ->
  skip_ws u = EmptyString
  /\ digits u = ([], u)
  /\ frac_part u = None
  /\ exp_part u = None
  /\ match u with
     | String g r' =>
         if is_char 45 g then (-1, r')
         else if is_char 43 g then (1, r')
         else (1, u)
     | EmptyString => (1, u)
     end = (1, u).
Proof.
  intros H. split.
  { induction u as [|c r IH]; [reflexivity|].
    cbn [string_forallb] in H. apply andb_true_iff in H.
    destruct H as [Hc Hr]. cbn [skip_ws]. rewrite Hc. now apply IH. }
  destruct u as [|c r]; [repeat split; reflexivity|].
  cbn [string_forallb] in H. apply andb_true_iff in H. destruct H as [Hc _].
  cbn [digits frac_part exp_part].
  rewrite (ws_not_digit c Hc).
  rewrite (ws_not 46 c), (ws_not 101 c), (ws_not 69 c),
    (ws_not 45 c), (ws_not 43 c) by (lia || exact Hc).
  repeat split; reflexivity.
Qed.

Section Suffix.

(** [t] is JSON whitespace: what may follow a value on its line. *)
Variable t : string.
Hypothesis t_ws : string_forallb is_json_ws t = true.

Lemma skip_ws_app_cons (a : string) (c : ascii) (r : string) :
  skip_ws a = String c r -> skip_ws (a +:+ t) = String c (r +:+ t).
Proof.
  induction a as [|x a IH]; cbn [skip_ws]; [discriminate|].
  rewrite append_cons. cbn [skip_ws].
  destruct (is_json_ws x); [exact IH|].
  intros [= <- <-]. reflexivity.
Qed.

Lemma skip_ws_app_empty (a : string) :
  skip_ws a = EmptyString -> skip_ws (a +:+ t) = EmptyString.
Proof.
  induction a as [|x a IH]; cbn [skip_ws];
    [intros _; apply (ws_readers t t_ws)|].
  rewrite append_cons. cbn [skip_ws].
  destruct (is_json_ws x); [exact IH | discriminate].
Qed.

Lemma digits_app (s : string) (ds : list Z) (rest : string) :
  digits s = (ds, rest) -> digits (s +:+ t) = (ds, rest +:+ t).
Proof.
  revert ds rest. induction s as [|c r IH]; intros ds rest; cbn [digits].
  - intros [= <- <-]. rewrite append_nil_l. apply (ws_readers t t_ws).
  - rewrite append_cons. cbn [digits]. destruct (is_digit c).
    + destruct (digits r) as [ds' rest'] eqn:E.
      rewrite (IH _ _ eq_refl). now intros [= <- <-].
    + now intros [= <- <-].
Qed.

Lemma int_part_app (s : string) (ip : list Z) (rest : string) :
  int_part s = Some (ip, rest) -> int_part (s +:+ t) = Some (ip, rest +:+ t).
Proof.
  destruct s as [|c r]; cbn [int_part]; [discriminate|].
  rewrite append_cons. cbn [int_part].
  destruct (is_char 48 c); [now intros [= <- <-]|].
  destruct (in_range 49 57 c); [|discriminate].
  intros H. injection H as H. change (digits (String c r) = (ip, rest)) in H.
  rewrite <- append_cons. now rewrite (digits_app _ _ _ H).
Qed.

Lemma frac_part_app (s : string) :
  frac_part (s +:+ t)
  = match frac_part s with
    | Some (fd, rest) => Some (fd, rest +:+ t)
    | None => None
    end.
Proof.
  destruct s as [|c r]; cbn [frac_part].
  - rewrite append_nil_l. apply (ws_readers t t_ws).
  - rewrite append_cons. cbn [frac_part].
    destruct (is_char 46 c); [|reflexivity].
    destruct (digits r) as [ds rest] eqn:E. rewrite (digits_app _ _ _ E).
    destruct ds; reflexivity.
Qed.

Lemma exp_part_app (s : string) :
  exp_part (s +:+ t)
  = match exp_part s with
    | Some (x, rest) => Some (x, rest +:+ t)
    | None => None
    end.
Proof.
  destruct (ws_readers t t_ws) as (_ & Hd & _ & He & Hsign).
  destruct s as [|c r]; cbn [exp_part].
  - rewrite append_nil_l. exact He.
  - rewrite append_cons. cbn [exp_part].
    destruct (is_char 101 c || is_char 69 c); [|reflexivity].
    destruct r as [|g r'].
    + rewrite append_nil_l, Hsign, Hd. reflexivity.
    + rewrite append_cons.
      destruct (is_char 45 g); [|destruct (is_char 43 g)].
      * destruct (digits r') as [ds rest] eqn:E. rewrite (digits_app _ _ _ E).
        destruct ds; reflexivity.
      * destruct (digits r') as [ds rest] eqn:E. rewrite (digits_app _ _ _ E).
        destruct ds; reflexivity.
      * rewrite <- append_cons.
        destruct (digits (String g r')) as [ds rest] eqn:E.
        rewrite (digits_app _ _ _ E). destruct ds; reflexivity.
Qed.

Lemma match_number_app (s : string) (v : value) (rest : string) :
  match_number s = Ok (v, rest) -> match_number (s +:+ t) = Ok (v, rest +:+ t).
Proof.
  unfold match_number. intros H.
  assert (Hsign :
    exists sign s1,
      match s with
      | String c r => if is_char 45 c then (-1, r) else (1, s)
      | EmptyString => (1, s)
      end = (sign, s1)
      /\ (s1 = EmptyString \/
          match s +:+ t with
          | String c r => if is_char 45 c then (-1, r) else (1, s +:+ t)
          | EmptyString => (1, s +:+ t)
          end = (sign, s1 +:+ t))).
  { destruct s as [|c r].
    - exists 1, EmptyString. split; [reflexivity | left; reflexivity].
    - rewrite append_cons. destruct (is_char 45 c); eexists _, _;
        (split; [reflexivity | right; reflexivity]). }
  destruct Hsign as (sign & s1 & E1 & E2). rewrite E1 in H.
  destruct E2 as [-> | E2]; [discriminate H|]. rewrite E2.
  destruct (int_part s1) as [[ip s2]|] eqn:Hip; [|discriminate].
  rewrite (int_part_app _ _ _ Hip).
  rewrite frac_part_app.
  destruct (frac_part s2) as [[fd s3]|];
    rewrite exp_part_app;
    [destruct (exp_part s3) as [[x s4]|] | destruct (exp_part s2) as [[x s4]|]];
    injection H as <- <-; reflexivity.
Qed.

Lemma strip_prefix_app_some (p s r : string) :
  strip_prefix p s = Some r -> strip_prefix p (s +:+ t) = Some (r +:+ t).
Proof.
  revert s. induction p as [|a p IH]; intros s; cbn [strip_prefix].
  - now intros [= <-].
  - destruct s as [|b s]; [discriminate|]. rewrite append_cons.
    cbn [strip_prefix]. destruct (Ascii.eqb a b); [apply IH | discriminate].
Qed.

Lemma strip_prefix_app_none (p s : string) :
  string_forallb (fun c => negb (is_json_ws c)) p = true ->
  strip_prefix p s = None -> strip_prefix p (s +:+ t) = None.
Proof.
  revert s. induction p as [|a p IH]; intros s Hp; cbn [strip_prefix];
    [discriminate|].
  cbn [string_forallb] in Hp. apply andb_true_iff in Hp. destruct Hp as [Ha Hp].
  destruct s as [|b s].
  - intros _. rewrite append_nil_l. clear IH.
    pose proof t_ws as Hws. destruct t as [|c r]; [reflexivity|].
    cbn [string_forallb] in Hws. apply andb_true_iff in Hws.
    destruct Hws as [Hc _]. cbn [strip_prefix].
    destruct (Ascii.eqb a c) eqn:E; [|reflexivity].
    apply Ascii.eqb_eq in E. subst c. rewrite Hc in Ha. discriminate Ha.
  - rewrite append_cons. cbn [strip_prefix].
    destruct (Ascii.eqb a b); [now apply IH | reflexivity].
Qed.

Lemma keyword_app (s : string) :
  keyword (s +:+ t)
  = match keyword s with
    | Some (v, rest) => Some (v, rest +:+ t)
    | None => None
    end.
Proof.
  unfold keyword.
  repeat match goal with
         | |- context [strip_prefix ?p s] =>
             let E := fresh "E" in
             destruct (strip_prefix p s) eqn:E;
             [rewrite (strip_prefix_app_some _ _ _ E); reflexivity
             |rewrite (strip_prefix_app_none p s eq_refl E)]
         end.
  reflexivity.
Qed.

Lemma scan_once_empty (n : nat) (x : value * string) :
  scan_once n EmptyString <> Ok x.
Proof. destruct n; discriminate. Qed.

Lemma object_members_empty (n : nat) (d : dict) (x : value * string) :
  object_members n d EmptyString <> Ok x.
Proof. destruct n; discriminate. Qed.

Lemma array_items_empty (n : nat) (acc : list value) (x : value * string) :
  array_items n acc EmptyString <> Ok x.
Proof.
  destruct n; [discriminate|]. cbn [array_items].
  destruct n; discriminate.
Qed.

(** Skipping whitespace before a text that a reader accepts. *)
Lemma skip_ws_app_reader (r : string) :
  skip_ws r <> EmptyString -> skip_ws (r +:+ t) = skip_ws r +:+ t.
Proof.
  destruct (skip_ws r) as [|c r'] eqn:E; [congruence|].
  intros _. now rewrite (skip_ws_app_cons _ _ _ E).
Qed.

(** Bring the facts about the text read so far to the text followed by
    [t]; [IHscan], [IHobj] and [IHarr] are the induction hypotheses, [m] the
    fuel of the goal. *)
Ltac extend_facts IHscan IHobj IHarr m :=
  repeat match goal with
    | E : scanstring ?r = Ok (_, _) |- _ =>
        apply (scanstring_app (len r) r _ _ t (Nat.le_refl _)) in E; revert E
    | E : skip_ws ?r = String _ _ |- _ =>
        apply skip_ws_app_cons in E; revert E
    | E : keyword ?s = _ |- _ =>
        let K := fresh "K" in
        pose proof (keyword_app s) as K; rewrite E in K; clear E; revert K
    | E : match_number ?s = Ok (_, _) |- _ =>
        apply match_number_app in E; revert E
    | E : scan_once ?n (skip_ws ?r) = Ok _ |- _ =>
        let W := fresh "W" in
        assert (W : skip_ws (r +:+ t) = skip_ws r +:+ t)
          by (apply skip_ws_app_reader; intros W; rewrite W in E;
              exact (scan_once_empty _ _ E));
        apply (fun H => IHscan _ _ _ m H) in E; [|lia];
        rewrite <- W in E; clear W; revert E
    | E : object_members ?n ?d (skip_ws ?r) = Ok _ |- _ =>
        let W := fresh "W" in
        assert (W : skip_ws (r +:+ t) = skip_ws r +:+ t)
          by (apply skip_ws_app_reader; intros W; rewrite W in E;
              exact (object_members_empty _ _ _ E));
        apply (fun H => IHobj _ _ _ _ m H) in E; [|lia];
        rewrite <- W in E; clear W; revert E
    | E : array_items ?n ?a (skip_ws ?r) = Ok _ |- _ =>
        let W := fresh "W" in
        assert (W : skip_ws (r +:+ t) = skip_ws r +:+ t)
          by (apply skip_ws_app_reader; intros W; rewrite W in E;
              exact (array_items_empty _ _ _ E));
        apply (fun H => IHarr _ _ _ _ m H) in E; [|lia];
        rewrite <- W in E; clear W; revert E
    | E : scan_once ?n ?s = Ok _ |- _ =>
        apply (fun H => IHscan _ _ _ m H) in E; [|lia]; revert E
    | E : object_members ?n ?d ?s = Ok _ |- _ =>
        apply (fun H => IHobj _ _ _ _ m H) in E; [|lia]; revert E
    | E : array_items ?n ?a ?s = Ok _ |- _ =>
        apply (fun H => IHarr _ _ _ _ m H) in E; [|lia]; revert E
    end;
  intros.

Lemma scanner_app (n : nat) :
  (forall s v rest m, scan_once n s = Ok (v, rest) -> (n <= m)%nat ->
                      scan_once m (s +:+ t) = Ok (v, rest +:+ t)) /\
  (forall d s v rest m, object_members n d s = Ok (v, rest) -> (n <= m)%nat ->
                        object_members m d (s +:+ t) = Ok (v, rest +:+ t)) /\
  (forall acc s v rest m, array_items n acc s = Ok (v, rest) -> (n <= m)%nat ->
                          array_items m acc (s +:+ t) = Ok (v, rest +:+ t)).
Proof.
  induction n as [|n (IHscan & IHobj & IHarr)];
    [split; [|split]; intros; discriminate|].
  split; [|split].
  - intros s v rest m H Hm. destruct m as [|m]; [lia|].
    destruct s as [|c r]; cbn [scan_once] in H; [discriminate|].
    rewrite append_cons. cbn [scan_once].
    open_result H; extend_facts IHscan IHobj IHarr m;
      rewrite ?append_cons in *; sync_goal; cbn [bind]; try reflexivity.
  - intros d s v rest m H Hm. destruct m as [|m]; [lia|].
    destruct s as [|q r]; cbn [object_members] in H; [discriminate|].
    rewrite append_cons. cbn [object_members].
    open_result H; extend_facts IHscan IHobj IHarr m;
      rewrite ?append_cons in *; sync_goal; cbn [bind]; try reflexivity.
  - intros acc s v rest m H Hm. destruct m as [|m]; [lia|].
    cbn [array_items] in H. cbn [array_items].
    open_result H; extend_facts IHscan IHobj IHarr m;
      rewrite ?append_cons in *; sync_goal; cbn [bind]; try reflexivity.
Qed.

(** A text that [json_loads] accepts is accepted, with the same value, when
    JSON whitespace follows it. *)
Lemma json_loads_app (s : string) (v : value) :
  json_loads s = Ok v -> json_loads (s +:+ t) = Ok v.
Proof.
  unfold json_loads. intros H.
  destruct (strip_prefix bom s) eqn:Hbom; [discriminate|].
  rewrite (strip_prefix_app_none bom s eq_refl Hbom).
  destruct (scan_once _ (skip_ws s)) as [[v' rest]|e] eqn:E;
    cbn [bind] in H; [|discriminate].
  destruct (skip_ws rest) eqn:Hrest; [|discriminate]. injection H as ->.
  assert (W : skip_ws (s +:+ t) = skip_ws s +:+ t).
  { apply skip_ws_app_reader. intros W. rewrite W in E.
    exact (scan_once_empty _ _ E). }
  rewrite W.
  rewrite (proj1 (scanner_app _) _ _ _ (S (2 * len (s +:+ t))) E).
  - cbn [bind]. now rewrite (skip_ws_app_empty _ Hrest).
  - assert (len s <= len (s +:+ t))%nat; [|lia].
    clear. induction s as [|c s IH]; cbn [String.length]; [lia|].
    rewrite append_cons. cbn [String.length]. lia.
Qed.

End Suffix.

Lemma string_forallb_app (p : ascii -> bool) (a b : string) :
  string_forallb p (a +:+ b) = string_forallb p a && string_forallb p b.
Proof.
  induction a as [|c a IH]; [reflexivity|].
  rewrite append_cons. cbn [string_forallb]. rewrite IH. apply andb_assoc.
Qed.

Lemma length_append (a b : string) : len (a +:+ b) = (len a + len b)%nat.
Proof.
  induction a as [|c a IH]; [reflexivity|].
  rewrite append_cons. cbn [String.length]. now rewrite IH.
Qed.

Lemma ws_ascii (c : ascii) : is_json_ws c = true -> (code c <? 128) = true.
Proof.
  unfold is_json_ws, is_char. intros H.
  repeat match type of H with
         | (_ || _) = true => apply orb_true_iff in H; destruct H as [H|H]
         end; apply Z.eqb_eq in H; rewrite H; reflexivity.
Qed.

Lemma utf8_valid_ws (w : string) :
  string_forallb is_json_ws w = true -> utf8_valid w = true.
Proof.
  induction w as [|c w IH]; [reflexivity|].
  cbn [string_forallb utf8_valid]. intros H. apply andb_true_iff in H.
  destruct H as [Hc Hw]. now rewrite (ws_ascii c Hc), IH.
Qed.

Lemma utf8_valid_app (n : nat) :
  forall a b, (len a <= n)%nat -> utf8_valid a = true -> utf8_valid b = true ->
              utf8_valid (a +:+ b) = true.
Proof.
  induction n as [|n IH]; intros a b Hn Ha Hb.
  - destruct a; cbn in *; [exact Hb | lia].
  - destruct a as [|c r]; [exact Hb|].
    rewrite append_cons. cbn [utf8_valid] in Ha |- *.
    repeat split_head Ha; try discriminate Ha;
      repeat match goal with
             | H : _ && _ = true |- _ =>
                 apply andb_true_iff in H; destruct H
             end;
      subst; rewrite ?append_cons; sync_goal;
      cbn [andb]; apply IH; auto; cbn [String.length] in *; lia.
Qed.

(** JSON whitespace in front of a text that [json_loads] accepts. *)
Lemma json_loads_lead (w s : string) (v : value) :
  string_forallb is_json_ws w = true ->
  json_loads s = Ok v -> json_loads (w +:+ s) = Ok v.
Proof.
  intros Hw H. destruct w as [|c w]; [exact H|].
  cbn [string_forallb] in Hw. apply andb_true_iff in Hw. destruct Hw as [Hc Hw].
  unfold json_loads in *.
  destruct (strip_prefix bom s); [discriminate|].
  assert (Hbom : strip_prefix bom (String c w +:+ s) = None).
  { rewrite append_cons. unfold bom. cbn [strip_prefix].
    destruct (Ascii.eqb (chr 239) c) eqn:E; [|reflexivity].
    apply Ascii.eqb_eq in E. subst c. discriminate Hc. }
  rewrite Hbom.
  assert (Hskip : skip_ws (String c w +:+ s) = skip_ws s).
  { rewrite append_cons. cbn [skip_ws]. rewrite Hc. clear -Hw.
    induction w as [|x w IH]; [reflexivity|].
    cbn [string_forallb] in Hw. apply andb_true_iff in Hw.
    destruct Hw as [Hx Hw]. rewrite append_cons. cbn [skip_ws].
    rewrite Hx. now apply IH. }
  rewrite Hskip.
  destruct (scan_once _ (skip_ws s)) as [[v' rest]|e] eqn:E;
    cbn [bind] in H; [|discriminate].
  pose proof (proj1 (scanner_app EmptyString eq_refl _) _ _ _
                (S (2 * len (String c w +:+ s))) E) as E'.
  rewrite !append_empty_r in E'. rewrite E'; [exact H|].
  rewrite length_append. lia.
Qed.

(** X8: JSON whitespace (spaces, tabs, carriage returns, newlines) before
    or after a line changes nothing: when a non-blank line decodes to a JSON
    value, the line with such whitespace around it gives what the line
    itself gives, the same fragment or the same [AttributeError].  So the
    newline that still ends a line read from the response does no harm. *)
Theorem whitespace_around_line (before after line : string) (v : value) :
  string_forallb is_json_ws before = true ->
  string_forallb is_json_ws after = true ->
  string_forallb is_bytes_space line = false ->
  loads_line line = Ok v ->
  consume_line (before +:+ line +:+ after) = consume_line line.
Proof.
  intros Hb Ha Hline Hload.
  rewrite !consume_line_unfold, !string_forallb_app, Hline.
  rewrite andb_false_l, andb_false_r. f_equal.
  rewrite Hload. unfold loads_line, decode_utf8 in *.
  destruct (utf8_valid line) eqn:Hvalid; cbn [bind] in Hload; [|discriminate].
  assert (Hv : utf8_valid (before +:+ line +:+ after) = true).
  { apply (utf8_valid_app (len before)); [lia | now apply utf8_valid_ws|].
    apply (utf8_valid_app (len line)); [lia | exact Hvalid|].
    now apply utf8_valid_ws. }
  rewrite Hv. cbn [bind].
  apply json_loads_lead; [exact Hb|].
  now apply json_loads_app.
Qed.

Lemma whitespace_around_line_witness :
  consume_line (" " +:+ json_text "{'message':{'content':'Hel'},'done':true}"
                +:+ String (chr 13) nl)
  = consume_line (json_text "{'message':{'content':'Hel'},'done':true}").
Proof.
  apply (whitespace_around_line " "
           (String (chr 13) nl)
           (json_text "{'message':{'content':'Hel'},'done':true}")
           (VDict [("message", VDict [("content", VStr "Hel")]);
                   ("done", VBool true)])).
  - vm_compute. reflexivity.
  - vm_compute. reflexivity.
  - vm_compute. reflexivity.
  - vm_compute. reflexivity.
Defined.

(** X12: bytes.strip() and the JSON decoder do not agree on whitespace.  A
    vertical tab or a form feed is whitespace for the blank test, but the
    line is parsed unstripped and the decoder rejects it: a line that
    starts with one of the two and is not blank raises [JSONDecodeError],
    whatever follows. *)
Theorem vertical_tab_rejected (c : ascii) (s : string) :
  c = chr 11 \/ c = chr 12 ->
  string_forallb is_bytes_space s = false ->
  utf8_valid s = true ->
  consume_line (String c s) = Raise JSONDecodeError.
Proof.
  intros Hc Hs Hvalid. rewrite consume_line_unfold.
  cbn [string_forallb]. rewrite Hs, andb_false_r.
  unfold loads_line, decode_utf8.
  assert (Hv : utf8_valid (String c s) = true).
  { destruct Hc as [-> | ->]; cbn [utf8_valid];
      change (code (chr 11) <? 128) with true;
      change (code (chr 12) <? 128) with true; exact Hvalid. }
  rewrite Hv. cbn [bind].
  assert (Hloads : json_loads (String c s) = Raise JSONDecodeError).
  { destruct Hc as [-> | ->]; vm_compute; reflexivity. }
  now rewrite Hloads.
Qed.

Lemma vertical_tab_rejected_witness :
  consume_line (String (chr 11) (json_text "{'message':{'content':'Hel'}}"))
  = Raise JSONDecodeError.
Proof.
  apply (vertical_tab_rejected (chr 11)
           (json_text "{'message':{'content':'Hel'}}")).
  - left. reflexivity.
  - vm_compute. reflexivity.
  - vm_compute. reflexivity.
Defined.

(** ** The run as a whole *)

Lemma consume_prefix (content : list string) (broken : option exn) :
  exists read unread,
    content = read ++ unread
    /\ Forall2 (fun line item => consume_line line = Ok item)
               read (yields (consume content broken))
    /\ (unread = [] /\ raised (consume content broken) = broken
        \/ exists line rest e,
            unread = line :: rest
            /\ consume_line line = Raise e
            /\ raised (consume content broken) = Some e).
Proof.
  unfold yields.
  induction content as [|line content (read & unread & Hc & Hf & Hend)];
    cbn [consume].
  - exists [], []. repeat split; [constructor | left; split; reflexivity].
  - destruct (consume_line line) as [item|e] eqn:E;
      cbn [trace raised flat_map app].
    + exists (line :: read), unread.
      split; [now rewrite Hc|]. split; [constructor; assumption | exact Hend].
    + exists [], (line :: content).
      split; [reflexivity|]. split; [constructor|].
      right. exists line, content, e. repeat split. exact E.
Qed.

(** X13: what a call with the endpoint configured yields, for any response
    body.  The body splits into the lines read and the lines left; the
    fragments yielded are exactly those of the lines read, one per line and
    in order; and either nothing is left and the call ends as the body
    ends, or the first line left is one the loop body raises on, and the
    call ends with that exception.  No line is skipped and none is read
    after a failure. *)
Theorem fragments_follow_lines (environ : gmap string string)
    (post : string -> value -> response) (queries context : list string)
    (conversation : option (list conversation_item))
    (content : list string) (broken : option exn) :
  serves environ post queries context conversation content broken ->
  let r := generate_stream environ post queries context conversation in
  exists read unread,
    content = read ++ unread
    /\ Forall2 (fun line item => consume_line line = Ok item) read (yields r)
    /\ (unread = [] /\ raised r = broken
        \/ exists line rest e,
            unread = line :: rest
            /\ consume_line line = Raise e
            /\ raised r = Some e).
Proof.
  intros Hserves. cbv zeta.
  apply yields_served in Hserves. destruct Hserves as [-> ->].
  apply consume_prefix.
Qed.

Lemma fragments_follow_lines_witness :
  let r := generate_stream configured
             (answering
                [json_text "{'message':{'content':'Hel'}}"; "oops";
                 json_text "{'message':{'content':'lo'}}"]
                None)
             ["q"] ["c"] None in
  exists read unread,
    [json_text "{'message':{'content':'Hel'}}"; "oops";
     json_text "{'message':{'content':'lo'}}"] = read ++ unread
    /\ Forall2 (fun line item => consume_line line = Ok item) read (yields r)
    /\ (unread = [] /\ raised r = None
        \/ exists line rest e,
            unread = line :: rest
            /\ consume_line line = Raise e
            /\ raised r = Some e).
Proof.
  apply (fragments_follow_lines configured
           (answering
              [json_text "{'message':{'content':'Hel'}}"; "oops";
               json_text "{'message':{'content':'lo'}}"]
              None)
           ["q"] ["c"] None
           [json_text "{'message':{'content':'Hel'}}"; "oops";
            json_text "{'message':{'content':'lo'}}"]
           None).
  split; [vm_compute; reflexivity | reflexivity].
Defined.
